(** * sglang custom all-reduce coordinator

    A shallow embedding of
    [python/sglang/srt/distributed/device_communicators/custom_all_reduce.py]:
    the NVML topology probe, the P2P probe, the dispatch gate, the
    capture-aware executor, the shared-buffer registry and teardown.

    The Python code talks to four collaborators (pynvml, torch and
    torch.distributed, the CUDA runtime wrapper and the native [ops]
    engine).  Their answers are fields of an environment record [Env];
    every call made to them is appended to a chronological trace, so that
    theorems can count and order the calls.  Python exceptions are the
    [Raise] outcome of a state-and-exception monad. *)

From Stdlib Require Import ZArith Lia String Bool.
From stdpp Require Import base list sorting.

Local Open Scope Z_scope.

(** ** Python outcomes *)

Inductive Exn :=
| AssertionError | IndexError | TypeError | AttributeError
| ValueError | RuntimeError | NVMLError.

Inductive Outcome (A : Type) :=
| Ret (a : A)
| Raise (e : Exn).
Arguments Ret {A} a.
Arguments Raise {A} e.

Definition is_NVMLError (e : Exn) : bool :=
  match e with NVMLError => true | _ => false end.

(** ** Data of the collaborators *)

(** A process group; [None] is the default group, as in
    [dist.get_rank(group=None)]. *)
Definition Group := option nat.

Inductive Backend := NCCL | GLOO | MPI | UCC.

Definition Backend_eqb (a b : Backend) : bool :=
  match a, b with
  | NCCL, NCCL | GLOO, GLOO | MPI, MPI | UCC, UCC => true
  | _, _ => false
  end.

(** [torch.device]: only its [index] is read by the source. *)
Record TorchDevice := { dev_type : string; index : option nat }.

(** The [device] argument of [__init__]: [Union[int, str, torch.device]]. *)
Inductive DeviceArg :=
| DevInt (i : Z)
| DevStr (s : string)
| DevObj (d : TorchDevice).

Inductive DType := float32 | float16 | bfloat16 | int32 | uint8.

Definition dtype_size (d : DType) : Z :=
  match d with
  | float32 | int32 => 4
  | float16 | bfloat16 => 2
  | uint8 => 1
  end.

(** A [torch.Tensor], reduced to what the source observes of it. *)
Record Tensor := {
  data_ptr : Z;
  shape : list Z;
  dtype : DType;
  is_contiguous : bool;
  storage_nbytes : Z;
  storage_offset : Z
}.

Definition numel (t : Tensor) : Z := fold_right Z.mul 1 (shape t).
Definition element_size (t : Tensor) : Z := dtype_size (dtype t).

Definition NvmlHandle := nat.
Definition IpcHandle := Z.
Definition GraphHandle := Z.

(** [pynvml.nvmlDeviceGetP2PStatus] answers [NVML_P2P_STATUS_OK] or one of
    the other status codes. *)
Inductive P2PStatus :=
| NVML_P2P_STATUS_OK
| NVML_P2P_STATUS_OTHER (code : nat).

(** What an NVML entry point hands to pynvml: the value, or a return code
    other than [NVML_SUCCESS], which pynvml turns into an [NVMLError]. *)
Inductive NvmlReturn (A : Type) :=
| NVML_SUCCESS (a : A)
| NVML_ERROR (code : nat).
Arguments NVML_SUCCESS {A} a.
Arguments NVML_ERROR {A} code.

Definition P2PStatus_is_ok (s : P2PStatus) : bool :=
  match s with NVML_P2P_STATUS_OK => true | _ => false end.

Inductive LogLine :=
| LogNvlinkDetectionFailed
| LogSkippingP2PCheck
| LogSpansAcrossNodes
| LogUnsupportedWorldSize (world_size : nat)
| LogMoreThanTwoPCIeOnly
| LogLacksP2P
| LogRegistering (n : nat).

(** One row of [all_data] in [register_graph_buffers]: [[None, None]]
    until it is filled. *)
Definition MetaRow := (option GraphHandle * option (list Z))%type.

(** Calls made to the collaborators, in the order the program makes
    them. *)
Inductive Event :=
| EvNvmlInit
| EvNvmlShutdown
| EvNvmlDeviceGetHandleByIndex (i : Z)
| EvNvmlDeviceGetP2PStatus (handle peer_handle : NvmlHandle)
| EvLog (l : LogLine)
| EvCanDeviceAccessPeer (rank i : nat)
| EvGpuP2PAccessCheck (rank i : nat)
| EvAllGather (g : Group) (physical_device_id : Z)
| EvCudaMalloc (size_in_bytes : Z)
| EvCudaIpcGetMemHandle (pointer : Z)
| EvAllGatherObject (g : Group) (handle : IpcHandle)
| EvCudaIpcOpenMemHandle (h : IpcHandle)
| EvCudaFree (pointer : Z)
| EvTorchEmpty (nbytes : Z)
| EvTorchEmptyLike (inp : Tensor)
| EvInitCustomAr (rank world_size : nat)
| EvAllReduce (ptr : Z) (inp out : Tensor)
| EvDispose (ptr : Z)
| EvGetGraphBufferIpcMeta (ptr : Z)
| EvBroadcastObjectList (g : Group) (i src : nat)
| EvRegisterGraphBuffers (ptr : Z) (handles : list (option GraphHandle))
    (offsets : list (option (list Z))).

(** ** The environment

    What the collaborators answer.  An answer that depends on what
    happened before (the allocator, a collective, the native engine) takes
    the trace so far as an argument. *)
Record Env := {
  (* [import sgl_kernel] succeeded *)
  custom_ar : bool;
  (* torch.distributed *)
  get_backend : Group -> Backend;
  in_the_same_node_as : Group -> list bool;
  get_rank : Group -> nat;
  get_world_size : Group -> nat;
  get_process_group_ranks : Group -> list nat;
  peer_physical_device_id : Group -> nat -> Z;
  peer_ipc_handle : list Event -> Group -> nat -> IpcHandle;
  peer_graph_meta : list Event -> Group -> nat -> MetaRow;
  (* torch, os and sglang.srt.utils *)
  torch_device : DeviceArg -> Outcome TorchDevice;
  device_ids : Outcome (list Z);
  is_cuda : bool;
  torch_alloc : list Event -> Z;
  can_device_access_peer : nat -> nat -> bool;
  gpu_p2p_access_check : nat -> nat -> bool;
  SGLANG_SKIP_P2P_CHECK : option string;
  (* pynvml *)
  nvmlInit : NvmlReturn unit;
  nvmlDeviceGetHandleByIndex : Z -> NvmlReturn NvmlHandle;
  nvmlDeviceGetP2PStatus : NvmlHandle -> NvmlHandle -> NvmlReturn P2PStatus;
  (* CudaRTLibrary *)
  cudaMalloc : list Event -> Z -> Z;
  cudaIpcGetMemHandle : Z -> IpcHandle;
  cudaIpcOpenMemHandle : IpcHandle -> Z;
  (* sglang.srt._custom_ops *)
  init_custom_ar :
    nat -> nat -> Tensor -> list Z -> list Z -> list Z -> list Z -> Z;
  get_graph_buffer_ipc_meta : list Event -> Z -> GraphHandle * list Z
}.

(** ** The coordinator object

    A Python object is its attribute dictionary: an attribute that was
    never assigned is [None] here and reading it raises
    [AttributeError]. *)
Record Coordinator := {
  _IS_CAPTURING : option bool;
  disabled : option bool;
  group : option Group;
  device : option TorchDevice;
  max_size : option Z;
  rank : option nat;
  world_size : option nat;
  full_nvlink : option bool;
  max_required_workspace_size : option (list Z);
  barrier_max_size : option Z;
  buffer_ptrs : option (list Z);
  tmp_result_buffer_ptrs : option (list Z);
  rank_data_base : option Tensor;
  barrier_in_ptrs : option (list Z);
  barrier_out_ptrs : option (list Z);
  _ptr : option Z
}.

(** The object as [__init__] receives it: no attribute is set yet. *)
Definition fresh_object : Coordinator :=
  {| _IS_CAPTURING := None; disabled := None; group := None;
     device := None; max_size := None; rank := None; world_size := None;
     full_nvlink := None; max_required_workspace_size := None;
     barrier_max_size := None; buffer_ptrs := None;
     tmp_result_buffer_ptrs := None; rank_data_base := None;
     barrier_in_ptrs := None; barrier_out_ptrs := None; _ptr := None |}.

Definition set_IS_CAPTURING (v : bool) (c : Coordinator) : Coordinator :=
  {| _IS_CAPTURING := Some v; disabled := disabled c; group := group c;
     device := device c; max_size := max_size c; rank := rank c;
     world_size := world_size c; full_nvlink := full_nvlink c;
     max_required_workspace_size := max_required_workspace_size c;
     barrier_max_size := barrier_max_size c; buffer_ptrs := buffer_ptrs c;
     tmp_result_buffer_ptrs := tmp_result_buffer_ptrs c;
     rank_data_base := rank_data_base c;
     barrier_in_ptrs := barrier_in_ptrs c;
     barrier_out_ptrs := barrier_out_ptrs c; _ptr := _ptr c |}.

Definition set_disabled (v : bool) (c : Coordinator) : Coordinator :=
  {| _IS_CAPTURING := _IS_CAPTURING c; disabled := Some v;
     group := group c; device := device c; max_size := max_size c;
     rank := rank c; world_size := world_size c;
     full_nvlink := full_nvlink c;
     max_required_workspace_size := max_required_workspace_size c;
     barrier_max_size := barrier_max_size c; buffer_ptrs := buffer_ptrs c;
     tmp_result_buffer_ptrs := tmp_result_buffer_ptrs c;
     rank_data_base := rank_data_base c;
     barrier_in_ptrs := barrier_in_ptrs c;
     barrier_out_ptrs := barrier_out_ptrs c; _ptr := _ptr c |}.

Definition set_group (v : Group) (c : Coordinator) : Coordinator :=
  {| _IS_CAPTURING := _IS_CAPTURING c; disabled := disabled c;
     group := Some v; device := device c; max_size := max_size c;
     rank := rank c; world_size := world_size c;
     full_nvlink := full_nvlink c;
     max_required_workspace_size := max_required_workspace_size c;
     barrier_max_size := barrier_max_size c; buffer_ptrs := buffer_ptrs c;
     tmp_result_buffer_ptrs := tmp_result_buffer_ptrs c;
     rank_data_base := rank_data_base c;
     barrier_in_ptrs := barrier_in_ptrs c;
     barrier_out_ptrs := barrier_out_ptrs c; _ptr := _ptr c |}.

Definition set_device (v : TorchDevice) (c : Coordinator) : Coordinator :=
  {| _IS_CAPTURING := _IS_CAPTURING c; disabled := disabled c;
     group := group c; device := Some v; max_size := max_size c;
     rank := rank c; world_size := world_size c;
     full_nvlink := full_nvlink c;
     max_required_workspace_size := max_required_workspace_size c;
     barrier_max_size := barrier_max_size c; buffer_ptrs := buffer_ptrs c;
     tmp_result_buffer_ptrs := tmp_result_buffer_ptrs c;
     rank_data_base := rank_data_base c;
     barrier_in_ptrs := barrier_in_ptrs c;
     barrier_out_ptrs := barrier_out_ptrs c; _ptr := _ptr c |}.

Definition set_max_size (v : Z) (c : Coordinator) : Coordinator :=
  {| _IS_CAPTURING := _IS_CAPTURING c; disabled := disabled c;
     group := group c; device := device c; max_size := Some v;
     rank := rank c; world_size := world_size c;
     full_nvlink := full_nvlink c;
     max_required_workspace_size := max_required_workspace_size c;
     barrier_max_size := barrier_max_size c; buffer_ptrs := buffer_ptrs c;
     tmp_result_buffer_ptrs := tmp_result_buffer_ptrs c;
     rank_data_base := rank_data_base c;
     barrier_in_ptrs := barrier_in_ptrs c;
     barrier_out_ptrs := barrier_out_ptrs c; _ptr := _ptr c |}.

Definition set_rank (v : nat) (c : Coordinator) : Coordinator :=
  {| _IS_CAPTURING := _IS_CAPTURING c; disabled := disabled c;
     group := group c; device := device c; max_size := max_size c;
     rank := Some v; world_size := world_size c;
     full_nvlink := full_nvlink c;
     max_required_workspace_size := max_required_workspace_size c;
     barrier_max_size := barrier_max_size c; buffer_ptrs := buffer_ptrs c;
     tmp_result_buffer_ptrs := tmp_result_buffer_ptrs c;
     rank_data_base := rank_data_base c;
     barrier_in_ptrs := barrier_in_ptrs c;
     barrier_out_ptrs := barrier_out_ptrs c; _ptr := _ptr c |}.

Definition set_world_size (v : nat) (c : Coordinator) : Coordinator :=
  {| _IS_CAPTURING := _IS_CAPTURING c; disabled := disabled c;
     group := group c; device := device c; max_size := max_size c;
     rank := rank c; world_size := Some v; full_nvlink := full_nvlink c;
     max_required_workspace_size := max_required_workspace_size c;
     barrier_max_size := barrier_max_size c; buffer_ptrs := buffer_ptrs c;
     tmp_result_buffer_ptrs := tmp_result_buffer_ptrs c;
     rank_data_base := rank_data_base c;
     barrier_in_ptrs := barrier_in_ptrs c;
     barrier_out_ptrs := barrier_out_ptrs c; _ptr := _ptr c |}.

Definition set_full_nvlink (v : bool) (c : Coordinator) : Coordinator :=
  {| _IS_CAPTURING := _IS_CAPTURING c; disabled := disabled c;
     group := group c; device := device c; max_size := max_size c;
     rank := rank c; world_size := world_size c; full_nvlink := Some v;
     max_required_workspace_size := max_required_workspace_size c;
     barrier_max_size := barrier_max_size c; buffer_ptrs := buffer_ptrs c;
     tmp_result_buffer_ptrs := tmp_result_buffer_ptrs c;
     rank_data_base := rank_data_base c;
     barrier_in_ptrs := barrier_in_ptrs c;
     barrier_out_ptrs := barrier_out_ptrs c; _ptr := _ptr c |}.

Definition set_max_required_workspace_size (v : list Z) (c : Coordinator)
    : Coordinator :=
  {| _IS_CAPTURING := _IS_CAPTURING c; disabled := disabled c;
     group := group c; device := device c; max_size := max_size c;
     rank := rank c; world_size := world_size c;
     full_nvlink := full_nvlink c; max_required_workspace_size := Some v;
     barrier_max_size := barrier_max_size c; buffer_ptrs := buffer_ptrs c;
     tmp_result_buffer_ptrs := tmp_result_buffer_ptrs c;
     rank_data_base := rank_data_base c;
     barrier_in_ptrs := barrier_in_ptrs c;
     barrier_out_ptrs := barrier_out_ptrs c; _ptr := _ptr c |}.

Definition set_barrier_max_size (v : Z) (c : Coordinator) : Coordinator :=
  {| _IS_CAPTURING := _IS_CAPTURING c; disabled := disabled c;
     group := group c; device := device c; max_size := max_size c;
     rank := rank c; world_size := world_size c;
     full_nvlink := full_nvlink c;
     max_required_workspace_size := max_required_workspace_size c;
     barrier_max_size := Some v; buffer_ptrs := buffer_ptrs c;
     tmp_result_buffer_ptrs := tmp_result_buffer_ptrs c;
     rank_data_base := rank_data_base c;
     barrier_in_ptrs := barrier_in_ptrs c;
     barrier_out_ptrs := barrier_out_ptrs c; _ptr := _ptr c |}.

Definition set_buffer_ptrs (v : list Z) (c : Coordinator) : Coordinator :=
  {| _IS_CAPTURING := _IS_CAPTURING c; disabled := disabled c;
     group := group c; device := device c; max_size := max_size c;
     rank := rank c; world_size := world_size c;
     full_nvlink := full_nvlink c;
     max_required_workspace_size := max_required_workspace_size c;
     barrier_max_size := barrier_max_size c; buffer_ptrs := Some v;
     tmp_result_buffer_ptrs := tmp_result_buffer_ptrs c;
     rank_data_base := rank_data_base c;
     barrier_in_ptrs := barrier_in_ptrs c;
     barrier_out_ptrs := barrier_out_ptrs c; _ptr := _ptr c |}.

Definition set_tmp_result_buffer_ptrs (v : list Z) (c : Coordinator)
    : Coordinator :=
  {| _IS_CAPTURING := _IS_CAPTURING c; disabled := disabled c;
     group := group c; device := device c; max_size := max_size c;
     rank := rank c; world_size := world_size c;
     full_nvlink := full_nvlink c;
     max_required_workspace_size := max_required_workspace_size c;
     barrier_max_size := barrier_max_size c; buffer_ptrs := buffer_ptrs c;
     tmp_result_buffer_ptrs := Some v; rank_data_base := rank_data_base c;
     barrier_in_ptrs := barrier_in_ptrs c;
     barrier_out_ptrs := barrier_out_ptrs c; _ptr := _ptr c |}.

Definition set_rank_data_base (v : Tensor) (c : Coordinator) : Coordinator :=
  {| _IS_CAPTURING := _IS_CAPTURING c; disabled := disabled c;
     group := group c; device := device c; max_size := max_size c;
     rank := rank c; world_size := world_size c;
     full_nvlink := full_nvlink c;
     max_required_workspace_size := max_required_workspace_size c;
     barrier_max_size := barrier_max_size c; buffer_ptrs := buffer_ptrs c;
     tmp_result_buffer_ptrs := tmp_result_buffer_ptrs c;
     rank_data_base := Some v; barrier_in_ptrs := barrier_in_ptrs c;
     barrier_out_ptrs := barrier_out_ptrs c; _ptr := _ptr c |}.

Definition set_barrier_in_ptrs (v : list Z) (c : Coordinator) : Coordinator :=
  {| _IS_CAPTURING := _IS_CAPTURING c; disabled := disabled c;
     group := group c; device := device c; max_size := max_size c;
     rank := rank c; world_size := world_size c;
     full_nvlink := full_nvlink c;
     max_required_workspace_size := max_required_workspace_size c;
     barrier_max_size := barrier_max_size c; buffer_ptrs := buffer_ptrs c;
     tmp_result_buffer_ptrs := tmp_result_buffer_ptrs c;
     rank_data_base := rank_data_base c; barrier_in_ptrs := Some v;
     barrier_out_ptrs := barrier_out_ptrs c; _ptr := _ptr c |}.

Definition set_barrier_out_ptrs (v : list Z) (c : Coordinator) : Coordinator :=
  {| _IS_CAPTURING := _IS_CAPTURING c; disabled := disabled c;
     group := group c; device := device c; max_size := max_size c;
     rank := rank c; world_size := world_size c;
     full_nvlink := full_nvlink c;
     max_required_workspace_size := max_required_workspace_size c;
     barrier_max_size := barrier_max_size c; buffer_ptrs := buffer_ptrs c;
     tmp_result_buffer_ptrs := tmp_result_buffer_ptrs c;
     rank_data_base := rank_data_base c;
     barrier_in_ptrs := barrier_in_ptrs c; barrier_out_ptrs := Some v;
     _ptr := _ptr c |}.

Definition set_ptr (v : Z) (c : Coordinator) : Coordinator :=
  {| _IS_CAPTURING := _IS_CAPTURING c; disabled := disabled c;
     group := group c; device := device c; max_size := max_size c;
     rank := rank c; world_size := world_size c;
     full_nvlink := full_nvlink c;
     max_required_workspace_size := max_required_workspace_size c;
     barrier_max_size := barrier_max_size c; buffer_ptrs := buffer_ptrs c;
     tmp_result_buffer_ptrs := tmp_result_buffer_ptrs c;
     rank_data_base := rank_data_base c;
     barrier_in_ptrs := barrier_in_ptrs c;
     barrier_out_ptrs := barrier_out_ptrs c; _ptr := Some v |}.
(** ** Program state and the monad of the embedding *)

Record State := {
  self : Coordinator;
  (* [torch.cuda.is_current_stream_capturing()] *)
  is_current_stream_capturing : bool;
  trace : list Event
}.

Definition M (A : Type) : Type := State -> Outcome A * State.

Definition ret {A} (a : A) : M A := fun s => (Ret a, s).

Definition raise {A} (e : Exn) : M A := fun s => (Raise e, s).

Definition bind {A B} (m : M A) (k : A -> M B) : M B :=
  fun s =>
    match m s with
    | (Ret a, s') => k a s'
    | (Raise e, s') => (Raise e, s')
    end.

Notation "'let*' x ':=' m 'in' k" := (bind m (fun x => k))
  (at level 10, x name, m at level 100, k at level 200).
Notation "m ';;' k" := (bind m (fun _ => k))
  (at level 100, k at level 200, right associativity).

Definition lift {A} (o : Outcome A) : M A := fun s => (o, s).

(** pynvml's [_nvmlCheckReturn]. *)
Definition nvmlCheckReturn {A} (r : NvmlReturn A) : M A :=
  match r with
  | NVML_SUCCESS a => ret a
  | NVML_ERROR _ => raise NVMLError
  end.

(** [try: body finally: fin].  The finaliser runs on both outcomes; an
    exception of the finaliser replaces the outcome of the body. *)
Definition try_finally {A} (body : M A) (fin : M unit) : M A :=
  fun s =>
    let '(o, s1) := body s in
    match fin s1 with
    | (Ret _, s2) => (o, s2)
    | (Raise e, s2) => (Raise e, s2)
    end.

(** [try: body except <catches>: handler]. *)
Definition try_except {A} (body : M A) (catches : Exn -> bool)
    (handler : M A) : M A :=
  fun s =>
    match body s with
    | (Ret a, s1) => (Ret a, s1)
    | (Raise e, s1) => if catches e then handler s1 else (Raise e, s1)
    end.

Definition py_assert (b : bool) : M unit :=
  if b then ret tt else raise AssertionError.

Definition emit (e : Event) : M unit :=
  fun s =>
    (Ret tt, {| self := self s;
                is_current_stream_capturing := is_current_stream_capturing s;
                trace := trace s ++ [e] |}).

Definition get_trace : M (list Event) := fun s => (Ret (trace s), s).

Definition get_stream_capturing : M bool :=
  fun s => (Ret (is_current_stream_capturing s), s).

(** Reading [self.<attr>]. *)
Definition attr {A} (f : Coordinator -> option A) : M A :=
  fun s =>
    match f (self s) with
    | Some v => (Ret v, s)
    | None => (Raise AttributeError, s)
    end.

(** Assigning [self.<attr> = v]. *)
Definition assign (upd : Coordinator -> Coordinator) : M unit :=
  fun s =>
    (Ret tt, {| self := upd (self s);
                is_current_stream_capturing := is_current_stream_capturing s;
                trace := trace s |}).

(** [l[i]] for a non-negative [i]. *)
Definition subscript {A} (l : list A) (i : nat) : M A :=
  match l !! i with
  | Some v => ret v
  | None => raise IndexError
  end.

(** [l[i] = v]: Python raises where stdpp's insert would do nothing. *)
Definition subscript_assign {A} (l : list A) (i : nat) (v : A) : M (list A) :=
  if (i <? length l)%nat then ret (<[i := v]> l) else raise IndexError.

Fixpoint enumerate_from {A} (n : nat) (l : list A) : list (nat * A) :=
  match l with
  | [] => []
  | x :: l' => (n, x) :: enumerate_from (S n) l'
  end.

Definition enumerate {A} (l : list A) : list (nat * A) := enumerate_from 0 l.

(** [[f(x) for x in l]] where [f] has effects. *)
Fixpoint comprehension {A B} (f : A -> M B) (l : list A) : M (list B) :=
  match l with
  | [] => ret []
  | x :: l' =>
      let* y := f x in
      let* ys := comprehension f l' in
      ret (y :: ys)
  end.

(** A state whose trace was extended by [evs]. *)
Definition after (s : State) (evs : list Event) : State :=
  {| self := self s;
     is_current_stream_capturing := is_current_stream_capturing s;
     trace := trace s ++ evs |}.

Definition with_self (s : State) (c : Coordinator) : State :=
  {| self := c;
     is_current_stream_capturing := is_current_stream_capturing s;
     trace := trace s |}.

Section Program.

Variable E : Env.

(** ** Module-level functions *)

Definition call_nvmlDeviceGetHandleByIndex (i : Z) : M NvmlHandle :=
  emit (EvNvmlDeviceGetHandleByIndex i) ;;
  nvmlCheckReturn (nvmlDeviceGetHandleByIndex E i).

Definition call_nvmlDeviceGetP2PStatus (handle peer_handle : NvmlHandle)
    : M P2PStatus :=
  emit (EvNvmlDeviceGetP2PStatus handle peer_handle) ;;
  nvmlCheckReturn (nvmlDeviceGetP2PStatus E handle peer_handle).

(** The decorator: [nvmlInit()], then [fn] under
    [try ... finally: nvmlShutdown()]. *)
Definition with_nvml_context {A} (fn : M A) : M A :=
  emit EvNvmlInit ;;
  nvmlCheckReturn (nvmlInit E) ;;
  try_finally fn (emit EvNvmlShutdown).

(** The loops of [is_full_nvlink].  A loop answers [Some b] when the
    function executed [return b] inside it and [None] when it ran to its
    end. *)
Fixpoint is_full_nvlink_inner (i : nat) (handle : NvmlHandle)
    (js : list (nat * NvmlHandle)) : M (option bool) :=
  match js with
  | [] => ret None
  | (j, peer_handle) :: js' =>
      let* r :=
        if (i <? j)%nat then
          try_except
            (let* p2p_status :=
               call_nvmlDeviceGetP2PStatus handle peer_handle in
             if negb (P2PStatus_is_ok p2p_status)
             then ret (Some false) else ret None)
            is_NVMLError
            (emit (EvLog LogNvlinkDetectionFailed) ;; ret (Some false))
        else ret None in
      match r with
      | Some b => ret (Some b)
      | None => is_full_nvlink_inner i handle js'
      end
  end.

Fixpoint is_full_nvlink_outer (handles : list (nat * NvmlHandle))
    (rest : list (nat * NvmlHandle)) : M (option bool) :=
  match rest with
  | [] => ret None
  | (i, handle) :: rest' =>
      let* r := is_full_nvlink_inner i handle handles in
      match r with
      | Some b => ret (Some b)
      | None => is_full_nvlink_outer handles rest'
      end
  end.

Definition is_full_nvlink_undecorated (physical_device_ids : list Z)
    : M bool :=
  let* handles :=
    comprehension call_nvmlDeviceGetHandleByIndex physical_device_ids in
  let* r := is_full_nvlink_outer (enumerate handles) (enumerate handles) in
  match r with
  | Some b => ret b
  | None => ret true
  end.

Definition is_full_nvlink (physical_device_ids : list Z) : M bool :=
  with_nvml_context (is_full_nvlink_undecorated physical_device_ids).

(** [os.getenv("SGLANG_SKIP_P2P_CHECK", "0") == "1"] *)
Definition skip_p2p_check : bool :=
  String.eqb (default "0"%string (SGLANG_SKIP_P2P_CHECK E)) "1"%string.

Fixpoint _can_p2p_loop (skip : bool) (rank : nat) (rest : list nat) : M bool :=
  match rest with
  | [] => ret true
  | i :: rest' =>
      if (i =? rank)%nat then _can_p2p_loop skip rank rest'
      else if skip then
        emit (EvLog LogSkippingP2PCheck) ;;
        emit (EvCanDeviceAccessPeer rank i) ;;
        ret (can_device_access_peer E rank i)
      else
        emit (EvGpuP2PAccessCheck rank i) ;;
        if negb (gpu_p2p_access_check E rank i) then ret false
        else _can_p2p_loop skip rank rest'
  end.

Definition _can_p2p (rank world_size : nat) : M bool :=
  _can_p2p_loop skip_p2p_check rank (seq 0 world_size).

Definition is_weak_contiguous (inp : Tensor) : bool :=
  is_contiguous inp
  || (storage_nbytes inp - storage_offset inp * element_size inp
      =? numel inp * element_size inp).

(** [torch.empty_like(inp)]: a new tensor of the shape and dtype of
    [inp].  Its layout is the allocator's; the coordinator never reads
    it. *)
Definition empty_like (inp : Tensor) : M Tensor :=
  let* tr := get_trace in
  emit (EvTorchEmptyLike inp) ;;
  ret {| data_ptr := torch_alloc E tr; shape := shape inp;
         dtype := dtype inp; is_contiguous := is_contiguous inp;
         storage_nbytes := numel inp * element_size inp;
         storage_offset := 0 |}.

(** [torch.empty(n, dtype=torch.uint8, device=self.device)] *)
Definition empty_uint8 (n : Z) : M Tensor :=
  let* tr := get_trace in
  emit (EvTorchEmpty n) ;;
  ret {| data_ptr := torch_alloc E tr; shape := [n]; dtype := uint8;
         is_contiguous := true; storage_nbytes := n; storage_offset := 0 |}.

(** ** class CustomAllreduce *)

Definition _SUPPORTED_WORLD_SIZES : list nat := [2; 4; 6; 8]%nat.

Fixpoint create_shared_buffer_loop (rank : nat) (pointer : Z)
    (handles : list (nat * IpcHandle)) (pointers : list Z) : M (list Z) :=
  match handles with
  | [] => ret pointers
  | (i, h) :: handles' =>
      if (i =? rank)%nat then
        create_shared_buffer_loop rank pointer handles' (pointers ++ [pointer])
      else
        emit (EvCudaIpcOpenMemHandle h) ;;
        create_shared_buffer_loop rank pointer handles'
          (pointers ++ [cudaIpcOpenMemHandle E h])
  end.

(** What [dist.all_gather_object(handles, handle, group)] leaves in
    [handles]: slot [i] holds the object rank [i] contributed. *)
Definition gathered {A} (rank world_size : nat) (mine : A) (peer : nat -> A)
    : list A :=
  map (fun i => if (i =? rank)%nat then mine else peer i) (seq 0 world_size).

Definition create_shared_buffer (size_in_bytes : Z) (group : Group)
    : M (list Z) :=
  let* tr := get_trace in
  let pointer := cudaMalloc E tr size_in_bytes in
  emit (EvCudaMalloc size_in_bytes) ;;
  let handle := cudaIpcGetMemHandle E pointer in
  emit (EvCudaIpcGetMemHandle pointer) ;;
  let world_size := get_world_size E group in
  let rank := get_rank E group in
  let* tr := get_trace in
  emit (EvAllGatherObject group handle) ;;
  let handles := gathered rank world_size handle (peer_ipc_handle E tr group) in
  create_shared_buffer_loop rank pointer (enumerate handles) [].

Definition free_shared_buffer (pointers : list Z) (group : Group) : M unit :=
  let rank := get_rank E group in
  let* p := subscript pointers rank in
  emit (EvCudaFree p).

Fixpoint register_graph_buffers_loop (g_self : Coordinator -> option Group)
    (ranks : list (nat * nat)) (all_data : list MetaRow)
    : M (list MetaRow) :=
  match ranks with
  | [] => ret all_data
  | (i, rank) :: ranks' =>
      let* row := subscript all_data i in
      let* g := attr g_self in
      let* tr := get_trace in
      emit (EvBroadcastObjectList g i rank) ;;
      let row' :=
        if (rank =? get_rank E None)%nat then row
        else peer_graph_meta E tr g rank in
      register_graph_buffers_loop g_self ranks' (<[i := row']> all_data)
  end.

Definition register_graph_buffers : M unit :=
  let* ptr := attr _ptr in
  let* tr := get_trace in
  emit (EvGetGraphBufferIpcMeta ptr) ;;
  let '(handle, offset) := get_graph_buffer_ipc_meta E tr ptr in
  emit (EvLog (LogRegistering (length offset))) ;;
  let* g := attr group in
  let all_data : list MetaRow := replicate (get_world_size E g) (None, None) in
  let* r := attr rank in
  let* all_data := subscript_assign all_data r (Some handle, Some offset) in
  let* g := attr group in
  let ranks := merge_sort Nat.le (get_process_group_ranks E g) in
  let* all_data :=
    register_graph_buffers_loop group (enumerate ranks) all_data in
  let handles := map fst all_data in
  let offsets := map snd all_data in
  let* ptr := attr _ptr in
  emit (EvRegisterGraphBuffers ptr handles offsets).

(** The context manager [capture], applied to the body of its [with]
    block. *)
Definition capture {A} (body : M A) : M A :=
  try_finally
    (assign (set_IS_CAPTURING true) ;; body)
    (assign (set_IS_CAPTURING false) ;;
     let* d := attr disabled in
     if negb d then register_graph_buffers else ret tt).

Definition should_custom_ar (inp : Tensor) : M bool :=
  let* d := attr disabled in
  if d then ret false else
  let inp_size := numel inp * element_size inp in
  if negb (inp_size mod 16 =? 0) then ret false else
  if negb (is_weak_contiguous inp) then ret false else
  let* ws := attr world_size in
  if (ws =? 2)%nat then
    let* ms := attr max_size in
    if inp_size <? ms then
      let* budget := attr max_required_workspace_size in
      let* b := subscript budget 0 in
      ret (inp_size <? b)
    else ret false
  else
  let* nv := attr full_nvlink in
  if nv then
    let* ms := attr max_size in
    if inp_size <? ms then
      let* budget := attr max_required_workspace_size in
      let* b := subscript budget 1 in
      ret (inp_size <? b)
    else ret false
  else ret false.

Definition all_reduce (inp : Tensor) (out : option Tensor) : M Tensor :=
  let* out :=
    match out with
    | None => empty_like inp
    | Some o => ret o
    end in
  let* ptr := attr _ptr in
  emit (EvAllReduce ptr inp out) ;;
  ret out.

Definition custom_all_reduce (input : Tensor) : M (option Tensor) :=
  let* d := attr disabled in
  let* not_handled :=
    if d then ret true
    else let* ok := should_custom_ar input in ret (negb ok) in
  if not_handled then ret None else
  let* capturing := attr _IS_CAPTURING in
  if capturing then
    let* recording := get_stream_capturing in
    if recording then
      let* out := all_reduce input None in ret (Some out)
    else
      let* out := empty_like input in ret (Some out)
  else
    let* out := all_reduce input None in ret (Some out).

Definition close : M unit :=
  let* d := attr disabled in
  let* live :=
    if negb d then let* ptr := attr _ptr in ret (negb (ptr =? 0))
    else ret false in
  if live then
    let* ptr := attr _ptr in
    emit (EvDispose ptr) ;;
    let* ptrs := attr buffer_ptrs in
    free_shared_buffer ptrs None ;;
    let* ptrs := attr tmp_result_buffer_ptrs in
    free_shared_buffer ptrs None ;;
    let* ptrs := attr barrier_in_ptrs in
    free_shared_buffer ptrs None ;;
    let* ptrs := attr barrier_out_ptrs in
    free_shared_buffer ptrs None ;;
    assign (set_ptr 0)
  else ret tt.

Definition __del__ : M unit := close.

Definition __init__ (group_arg : Group) (device_arg : DeviceArg)
    (max_size_arg : Z) : M unit :=
  assign (set_IS_CAPTURING false) ;;
  assign (set_disabled true) ;;
  if negb (custom_ar E) then ret tt else
  assign (set_group group_arg) ;;
  py_assert (negb (Backend_eqb (get_backend E group_arg) NCCL)) ;;
  if negb (forallb id (in_the_same_node_as E group_arg)) then
    emit (EvLog LogSpansAcrossNodes) ;; ret tt
  else
  let* g := attr group in
  let rank := get_rank E g in
  let* g := attr group in
  let world_size := get_world_size E g in
  if (world_size =? 1)%nat then ret tt else
  if negb (existsb (Nat.eqb world_size) _SUPPORTED_WORLD_SIZES) then
    emit (EvLog (LogUnsupportedWorldSize world_size)) ;; ret tt
  else
  let* device :=
    match device_arg with
    | DevInt _ | DevStr _ => lift (torch_device E device_arg)
    | DevObj d => ret d
    end in
  (* [assert isinstance(device, torch.device)] holds by typing here *)
  assign (set_device device) ;;
  let* device_ids := lift (device_ids E) in
  let* idx :=
    match index device with
    | Some i => ret i
    | None => raise TypeError
    end in
  let* physical_device_id := subscript device_ids idx in
  let* g := attr group in
  emit (EvAllGather g physical_device_id) ;;
  let physical_device_ids :=
    gathered rank world_size physical_device_id
      (peer_physical_device_id E g) in
  py_assert (is_cuda E) ;;
  let* full_nvlink := is_full_nvlink physical_device_ids in
  if (2 <? world_size)%nat && negb full_nvlink then
    emit (EvLog LogMoreThanTwoPCIeOnly) ;; ret tt
  else
  let* ok := _can_p2p rank world_size in
  if negb ok then emit (EvLog LogLacksP2P) ;; ret tt else
  assign (set_max_size max_size_arg) ;;
  assign (set_rank rank) ;;
  assign (set_world_size world_size) ;;
  assign (set_full_nvlink full_nvlink) ;;
  assign (set_max_required_workspace_size
            [16 * 1024 * 1024; 8 * 1024 * 1024]) ;;
  assign (set_barrier_max_size (8 * (36 + 2) * 8)) ;;
  let* ptrs := create_shared_buffer max_size_arg group_arg in
  assign (set_buffer_ptrs ptrs) ;;
  let* ptrs := create_shared_buffer max_size_arg group_arg in
  assign (set_tmp_result_buffer_ptrs ptrs) ;;
  let* t := empty_uint8 (8 * 1024 * 1024) in
  assign (set_rank_data_base t) ;;
  let* n := attr barrier_max_size in
  let* ptrs := create_shared_buffer n group_arg in
  assign (set_barrier_in_ptrs ptrs) ;;
  let* n := attr barrier_max_size in
  let* ptrs := create_shared_buffer n group_arg in
  assign (set_barrier_out_ptrs ptrs) ;;
  let* a := attr rank_data_base in
  let* b := attr buffer_ptrs in
  let* c := attr tmp_result_buffer_ptrs in
  let* d := attr barrier_in_ptrs in
  let* e := attr barrier_out_ptrs in
  emit (EvInitCustomAr rank world_size) ;;
  assign (set_ptr (init_custom_ar E rank world_size a b c d e)) ;;
  assign (set_disabled false).

(** Construction: [__init__] on a new object.  The object exists, and is
    later finalised by [__del__], whether or not [__init__] raises. *)
Definition construct (recording : bool) (group_arg : Group)
    (device_arg : DeviceArg) (max_size_arg : Z) : Outcome unit * State :=
  __init__ group_arg device_arg max_size_arg
    {| self := fresh_object; is_current_stream_capturing := recording;
       trace := [] |}.

(** ** Callers

    What code holding a coordinator may do with it: call its methods, open
    a capture region, raise, swallow an exception, and start or stop the
    recording of a graph by the backend. *)
Inductive Client :=
| Skip
| Seq (a b : Client)
| Call_should_custom_ar (inp : Tensor)
| Call_custom_all_reduce (inp : Tensor)
| Call_all_reduce (inp : Tensor) (out : option Tensor)
| Call_register_graph_buffers
| Call_close
| With_capture (body : Client)
| Try_except_pass (body : Client)
| Throw (e : Exn)
| Set_stream_capturing (b : bool).

Definition set_stream_capturing (b : bool) : M unit :=
  fun s =>
    (Ret tt, {| self := self s; is_current_stream_capturing := b;
                trace := trace s |}).

Fixpoint run (p : Client) : M unit :=
  match p with
  | Skip => ret tt
  | Seq a b => run a ;; run b
  | Call_should_custom_ar inp => should_custom_ar inp ;; ret tt
  | Call_custom_all_reduce inp => custom_all_reduce inp ;; ret tt
  | Call_all_reduce inp out => all_reduce inp out ;; ret tt
  | Call_register_graph_buffers => register_graph_buffers
  | Call_close => close
  | With_capture body => capture (run body)
  | Try_except_pass body => try_except (run body) (fun _ => true) (ret tt)
  | Throw e => raise e
  | Set_stream_capturing b => set_stream_capturing b
  end.

End Program.

(** ** Concrete environments

    A single host with NVLink between every pair of devices, a gloo
    transport and a working native engine; the arguments are the parts
    that individual examples vary. *)
Definition host_env (backend : Backend) (ranks : Group -> list nat)
    (rank_of : Group -> nat) (skip : option string)
    (peer_access : nat -> nat -> bool)
    (p2p_status : NvmlHandle -> NvmlHandle -> NvmlReturn P2PStatus) : Env :=
  {| custom_ar := true;
     get_backend := fun _ => backend;
     in_the_same_node_as := fun g => replicate (length (ranks g)) true;
     get_rank := rank_of;
     get_world_size := fun g => length (ranks g);
     get_process_group_ranks := ranks;
     peer_physical_device_id := fun _ i => Z.of_nat i;
     peer_ipc_handle := fun tr _ i => 1000 * Z.of_nat (length tr) + Z.of_nat i;
     peer_graph_meta := fun _ _ r => (Some (Z.of_nat r), Some []);
     torch_device := fun a =>
       match a with
       | DevInt i =>
           if 0 <=? i
           then Ret {| dev_type := "cuda"; index := Some (Z.to_nat i) |}
           else Raise RuntimeError
       | DevStr s => Ret {| dev_type := s; index := None |}
       | DevObj d => Ret d
       end;
     device_ids := Ret [0; 1; 2; 3; 4; 5; 6; 7];
     is_cuda := true;
     torch_alloc := fun tr => 70000 + Z.of_nat (length tr);
     can_device_access_peer := peer_access;
     gpu_p2p_access_check := peer_access;
     SGLANG_SKIP_P2P_CHECK := skip;
     nvmlInit := NVML_SUCCESS tt;
     nvmlDeviceGetHandleByIndex := fun i => NVML_SUCCESS (Z.to_nat i);
     nvmlDeviceGetP2PStatus := p2p_status;
     cudaMalloc := fun tr _ => 4096 * (1 + Z.of_nat (length tr));
     cudaIpcGetMemHandle := fun p => p + 1;
     cudaIpcOpenMemHandle := fun h => 2 * h;
     init_custom_ar := fun _ _ _ _ _ _ _ => 42;
     get_graph_buffer_ipc_meta := fun _ p => (p, [8; 16]) |}.

Definition all_nvlink : NvmlHandle -> NvmlHandle -> NvmlReturn P2PStatus :=
  fun _ _ => NVML_SUCCESS NVML_P2P_STATUS_OK.

(** The default group of [n] processes, seen from rank 0. *)
Definition default_group_env (backend : Backend) (n : nat) : Env :=
  host_env backend (fun _ => seq 0 n) (fun _ => 0%nat) None
    (fun _ _ => true) all_nvlink.

(** Four processes in two groups of two; this process has rank 2 in the
    default group and rank 0 in its own group [Some 1] = {2, 3}. *)
Definition subgroup_env : Env :=
  host_env GLOO
    (fun g => match g with None => seq 0 4 | Some _ => [2; 3]%nat end)
    (fun g => match g with None => 2%nat | Some _ => 0%nat end)
    None (fun _ _ => true) all_nvlink.

(** Three devices, the override set, and a driver that reports access to
    peer 1 but not to peer 2. *)
Definition override_env : Env :=
  host_env GLOO (fun _ => seq 0 3) (fun _ => 0%nat) (Some "1"%string)
    (fun _ i => (i =? 1)%nat) all_nvlink.

Definition state0 : State :=
  {| self := fresh_object; is_current_stream_capturing := false;
     trace := [] |}.

Definition tensor_1024 : Tensor :=
  {| data_ptr := 512; shape := [256]; dtype := float32;
     is_contiguous := true; storage_nbytes := 1024; storage_offset := 0 |}.

(** The coordinator [__init__] builds for rank 0 of the default group of
    two, and the state construction ends in (see
    [construct_enabled_state]). *)
Definition enabled_coordinator : Coordinator :=
  {| _IS_CAPTURING := Some false;
     disabled := Some false;
     group := Some None;
     device := Some {| dev_type := "cuda"; index := Some 0%nat |};
     max_size := Some 8388608;
     rank := Some 0%nat;
     world_size := Some 2%nat;
     full_nvlink := Some true;
     max_required_workspace_size := Some [16777216; 8388608];
     barrier_max_size := Some 2432;
     buffer_ptrs := Some [32768; 18002];
     tmp_result_buffer_ptrs := Some [49152; 26002];
     rank_data_base :=
       Some {| data_ptr := 70015; shape := [8388608]; dtype := uint8;
               is_contiguous := true; storage_nbytes := 8388608;
               storage_offset := 0 |};
     barrier_in_ptrs := Some [69632; 36002];
     barrier_out_ptrs := Some [86016; 44002];
     _ptr := Some 42 |}.

Definition enabled_state : State :=
  {| self := enabled_coordinator;
     is_current_stream_capturing := false;
     trace :=
       [EvAllGather None 0; EvNvmlInit; EvNvmlDeviceGetHandleByIndex 0;
        EvNvmlDeviceGetHandleByIndex 1;
        EvNvmlDeviceGetP2PStatus 0%nat 1%nat; EvNvmlShutdown;
        EvGpuP2PAccessCheck 0 1; EvCudaMalloc 8388608;
        EvCudaIpcGetMemHandle 32768; EvAllGatherObject None 32769;
        EvCudaIpcOpenMemHandle 9001; EvCudaMalloc 8388608;
        EvCudaIpcGetMemHandle 49152; EvAllGatherObject None 49153;
        EvCudaIpcOpenMemHandle 13001; EvTorchEmpty 8388608;
        EvCudaMalloc 2432; EvCudaIpcGetMemHandle 69632;
        EvAllGatherObject None 69633; EvCudaIpcOpenMemHandle 18001;
        EvCudaMalloc 2432; EvCudaIpcGetMemHandle 86016;
        EvAllGatherObject None 86017; EvCudaIpcOpenMemHandle 22001;
        EvInitCustomAr 0 2] |}.

(** The same coordinator inside a capture region. *)
Definition capturing_state : State :=
  with_self enabled_state (set_IS_CAPTURING true enabled_coordinator).


(** A contiguous float32 tensor of exactly 8 MiB, the default
    [max_size]. *)
Definition tensor_max : Tensor :=
  {| data_ptr := 1024; shape := [2097152]; dtype := float32;
     is_contiguous := true; storage_nbytes := 8388608;
     storage_offset := 0 |}.


(** [E] with other answers from NVML for the session and the handle
    lookups. *)
Definition with_nvml (E : Env) (init : NvmlReturn unit)
    (handle_by_index : Z -> NvmlReturn NvmlHandle) : Env :=
  {| custom_ar := custom_ar E;
     get_backend := get_backend E;
     in_the_same_node_as := in_the_same_node_as E;
     get_rank := get_rank E;
     get_world_size := get_world_size E;
     get_process_group_ranks := get_process_group_ranks E;
     peer_physical_device_id := peer_physical_device_id E;
     peer_ipc_handle := peer_ipc_handle E;
     peer_graph_meta := peer_graph_meta E;
     torch_device := torch_device E;
     device_ids := device_ids E;
     is_cuda := is_cuda E;
     torch_alloc := torch_alloc E;
     can_device_access_peer := can_device_access_peer E;
     gpu_p2p_access_check := gpu_p2p_access_check E;
     SGLANG_SKIP_P2P_CHECK := SGLANG_SKIP_P2P_CHECK E;
     nvmlInit := init;
     nvmlDeviceGetHandleByIndex := handle_by_index;
     nvmlDeviceGetP2PStatus := nvmlDeviceGetP2PStatus E;
     cudaMalloc := cudaMalloc E;
     cudaIpcGetMemHandle := cudaIpcGetMemHandle E;
     cudaIpcOpenMemHandle := cudaIpcOpenMemHandle E;
     init_custom_ar := init_custom_ar E;
     get_graph_buffer_ipc_meta := get_graph_buffer_ipc_meta E |}.

(** Three devices of which NVML cannot find the second. *)
Definition lost_device_env : Env :=
  with_nvml (default_group_env GLOO 3) (NVML_SUCCESS tt)
    (fun i => if i =? 1 then NVML_ERROR 2 else NVML_SUCCESS (Z.to_nat i)).

(** A contiguous float32 tensor of 16 bytes. *)
Definition tensor_16 : Tensor :=
  {| data_ptr := 2048; shape := [4]; dtype := float32;
     is_contiguous := true; storage_nbytes := 16; storage_offset := 0 |}.

(** ** Vocabulary of the statements *)

Definition inp_size (inp : Tensor) : Z := numel inp * element_size inp.

(** What the enabled branch of [__init__] leaves in the object. *)
Record Enabled (c : Coordinator) : Prop := {
  en_disabled : disabled c = Some false;
  en_capturing : is_Some (_IS_CAPTURING c);
  en_group : is_Some (group c);
  en_max_size : is_Some (max_size c);
  en_rank : is_Some (rank c);
  en_world_size :
    exists w, world_size c = Some w /\ In w _SUPPORTED_WORLD_SIZES;
  en_full_nvlink :
    exists nv, full_nvlink c = Some nv
               /\ (world_size c <> Some 2%nat -> nv = true);
  en_budget : max_required_workspace_size c = Some [16777216; 8388608];
  en_buffer_ptrs : is_Some (buffer_ptrs c);
  en_tmp_result_buffer_ptrs : is_Some (tmp_result_buffer_ptrs c);
  en_barrier_in_ptrs : is_Some (barrier_in_ptrs c);
  en_barrier_out_ptrs : is_Some (barrier_out_ptrs c);
  en_ptr : is_Some (_ptr c)
}.

(** The facts torch.distributed guarantees about a group: ranks are
    numbered below the world size, one per member. *)
Definition Group_consistent (E : Env) (g : Group) : Prop :=
  (get_rank E g < get_world_size E g)%nat
  /\ length (get_process_group_ranks E g) = get_world_size E g.

(** The object remembers the rank it has in its own group. *)
Definition Attached (E : Env) (c : Coordinator) : Prop :=
  exists g, group c = Some g /\ rank c = Some (get_rank E g)
            /\ Group_consistent E g.

(** The eligibility procedure of the dispatch gate, written from the
    specification: alignment, packing, then the threshold of the fan-in. *)
Definition isEligible (coordinator_disabled : bool) (tensorBytes : Z)
    (isContiguousOrEquivalentlyPacked : bool) (worldSize : nat)
    (fullMeshNvlink : bool) (globalMax budget2 budgetLarger : Z) : bool :=
  if coordinator_disabled then false
  else if negb (tensorBytes mod 16 =? 0) then false
  else if negb isContiguousOrEquivalentlyPacked then false
  else if (worldSize =? 2)%nat then
    (tensorBytes <? globalMax) && (tensorBytes <? budget2)
  else if (2 <? worldSize)%nat then
    fullMeshNvlink && (tensorBytes <? globalMax)
    && (tensorBytes <? budgetLarger)
  else false.

(** The P2P probe, written from the specification: every peer other than
    [rank] is asked, with the check the configuration selects. *)
Definition queryP2PAccess (E : Env) (rank worldSize : nat) : bool :=
  forallb
    (fun i =>
       if skip_p2p_check E then can_device_access_peer E rank i
       else gpu_p2p_access_check E rank i)
    (filter (fun i => i <> rank) (seq 0 worldSize)).

(** The device pairs [(i, j)], [i < j], in the order of the two loops. *)
Definition pairs_from (handles : list (nat * NvmlHandle))
    (row : nat * NvmlHandle) : list (NvmlHandle * NvmlHandle) :=
  flat_map
    (fun col => if (fst row <? fst col)%nat then [(snd row, snd col)] else [])
    handles.

Definition pairs (handles : list NvmlHandle)
    : list (NvmlHandle * NvmlHandle) :=
  flat_map (pairs_from (enumerate handles)) (enumerate handles).

Definition nvlink_ok (E : Env) (p : NvmlHandle * NvmlHandle) : bool :=
  match nvmlDeviceGetP2PStatus E (fst p) (snd p) with
  | NVML_SUCCESS NVML_P2P_STATUS_OK => true
  | _ => false
  end.

(** The calls a probe makes over a list of pairs: one status query per
    pair up to and including the first that is not NVLink-OK; a failed
    query is logged. *)
Fixpoint probe_events (E : Env) (ps : list (NvmlHandle * NvmlHandle))
    : list Event :=
  match ps with
  | [] => []
  | p :: ps' =>
      EvNvmlDeviceGetP2PStatus (fst p) (snd p) ::
      match nvmlDeviceGetP2PStatus E (fst p) (snd p) with
      | NVML_SUCCESS NVML_P2P_STATUS_OK => probe_events E ps'
      | NVML_SUCCESS _ => []
      | NVML_ERROR _ => [EvLog LogNvlinkDetectionFailed]
      end
  end.

(** Device handles, when every lookup succeeds. *)
Fixpoint device_handles (E : Env) (ids : list Z) : option (list NvmlHandle) :=
  match ids with
  | [] => Some []
  | i :: ids' =>
      match nvmlDeviceGetHandleByIndex E i with
      | NVML_SUCCESS h =>
          match device_handles E ids' with
          | Some hs => Some (h :: hs)
          | None => None
          end
      | NVML_ERROR _ => None
      end
  end.

Definition is_shutdown (e : Event) : bool :=
  match e with EvNvmlShutdown => true | _ => false end.

Definition is_registration (e : Event) : bool :=
  match e with EvRegisterGraphBuffers _ _ _ => true | _ => false end.

Definition is_graph_meta_query (e : Event) : bool :=
  match e with EvGetGraphBufferIpcMeta _ => true | _ => false end.

Definition is_dispose (e : Event) : bool :=
  match e with EvDispose _ => true | _ => false end.

Definition is_free (e : Event) : bool :=
  match e with EvCudaFree _ => true | _ => false end.

Definition is_reduce (e : Event) : bool :=
  match e with EvAllReduce _ _ _ => true | _ => false end.

Definition count (f : Event -> bool) (tr : list Event) : nat :=
  length (List.filter f tr).

(** The tensor [torch.empty_like(inp)] returns in state [s]. *)
Definition fresh_like (E : Env) (s : State) (inp : Tensor) : Tensor :=
  {| data_ptr := torch_alloc E (trace s); shape := shape inp;
     dtype := dtype inp; is_contiguous := is_contiguous inp;
     storage_nbytes := numel inp * element_size inp; storage_offset := 0 |}.

(** [preserves R m]: every run of [m], whatever its outcome, relates the
    state before to the state after. *)
Definition preserves (R : relation State) {A} (m : M A) : Prop :=
  forall s, R s (snd (m s)).

Definition same_self : relation State := fun s s' => self s' = self s.

Definition same_disabled : relation State :=
  fun s s' => disabled (self s') = disabled (self s).

(** The object after the two assignments that open [__init__]. *)
Definition inert : Coordinator :=
  set_disabled true (set_IS_CAPTURING false fresh_object).

(** The trace grew, and by no [nvmlShutdown]. *)
Definition grows_without_shutdown : relation State :=
  fun s s' =>
    exists evs, trace s' = trace s ++ evs /\ count is_shutdown evs = 0%nat.

(** The status queries recorded in a trace, in order. *)
Definition status_queries (tr : list Event)
    : list (NvmlHandle * NvmlHandle) :=
  flat_map
    (fun e =>
       match e with
       | EvNvmlDeviceGetP2PStatus h p => [(h, p)]
       | _ => []
       end)
    tr.

(** The pointer a slot of the table receives, and the call made for it. *)
Definition slot_pointer (E : Env) (rank : nat) (pointer : Z)
    (ih : nat * IpcHandle) : Z :=
  if (fst ih =? rank)%nat then pointer else cudaIpcOpenMemHandle E (snd ih).

Definition slot_events (rank : nat) (ih : nat * IpcHandle) : list Event :=
  if (fst ih =? rank)%nat then [] else [EvCudaIpcOpenMemHandle (snd ih)].

(** The object is the same but, possibly, for a zeroed [_ptr]. *)
Definition ptr_zeroed : relation State :=
  fun s s' => self s' = self s \/ self s' = set_ptr 0 (self s).

(** The coordinator [__init__] builds for the process of rank 2 in the
    default group of four, attached to its own group {2, 3}. *)
Definition subgroup_state : State :=
  snd (construct subgroup_env false (Some 1%nat) (DevInt 2) 8388608).

(** The table [create_shared_buffer] returns, and the calls it makes, in
    a state whose trace is [tr]. *)
Definition shared_buffer_handles (E : Env) (size : Z) (g : Group)
    (tr : list Event) : list (nat * IpcHandle) :=
  let pointer := cudaMalloc E tr size in
  enumerate
    (gathered (get_rank E g) (get_world_size E g)
       (cudaIpcGetMemHandle E pointer)
       (peer_ipc_handle E
          (tr ++ [EvCudaMalloc size; EvCudaIpcGetMemHandle pointer]) g)).

Definition shared_buffer_pointers (E : Env) (size : Z) (g : Group)
    (tr : list Event) : list Z :=
  map (slot_pointer E (get_rank E g) (cudaMalloc E tr size))
    (shared_buffer_handles E size g tr).

Definition shared_buffer_events (E : Env) (size : Z) (g : Group)
    (tr : list Event) : list Event :=
  let pointer := cudaMalloc E tr size in
  [EvCudaMalloc size; EvCudaIpcGetMemHandle pointer;
   EvAllGatherObject g (cudaIpcGetMemHandle E pointer)]
  ++ flat_map (slot_events (get_rank E g))
       (shared_buffer_handles E size g tr).

(** ** Vocabulary of the further properties *)

(** The calls that create something to be released later: device memory,
    IPC exports and mappings, the exchange of handles, the scratch heap and
    the native engine. *)
Definition is_resource (e : Event) : bool :=
  match e with
  | EvCudaMalloc _ | EvCudaIpcGetMemHandle _ | EvAllGatherObject _ _
  | EvCudaIpcOpenMemHandle _ | EvTorchEmpty _ | EvInitCustomAr _ _ => true
  | _ => false
  end.

Definition is_malloc (e : Event) : bool :=
  match e with EvCudaMalloc _ => true | _ => false end.

Definition is_ipc_open (e : Event) : bool :=
  match e with EvCudaIpcOpenMemHandle _ => true | _ => false end.

Definition is_gather_object (e : Event) : bool :=
  match e with EvAllGatherObject _ _ => true | _ => false end.

Definition is_engine_init (e : Event) : bool :=
  match e with EvInitCustomAr _ _ => true | _ => false end.

(** The trace grew, and by no call that [f] selects. *)
Definition grows_without (f : Event -> bool) : relation State :=
  fun s s' => exists evs, trace s' = trace s ++ evs /\ count f evs = 0%nat.

(** The pointers handed to [cudaIpcGetMemHandle] and to [cudaFree], in
    order. *)
Definition exported_pointers (tr : list Event) : list Z :=
  flat_map
    (fun e => match e with EvCudaIpcGetMemHandle p => [p] | _ => [] end) tr.

Definition freed_pointers (tr : list Event) : list Z :=
  flat_map (fun e => match e with EvCudaFree p => [p] | _ => [] end) tr.

(** The handles opened with [cudaIpcOpenMemHandle], in order. *)
Definition opened_handles (tr : list Event) : list IpcHandle :=
  flat_map
    (fun e => match e with EvCudaIpcOpenMemHandle h => [h] | _ => [] end) tr.

(** The peers of [rank] among [l], in order. *)
Definition peers (rank : nat) (l : list nat) : list nat :=
  filter (fun i => i <> rank) l.

(** The elements of [l] up to and including the first that fails [f]. *)
Fixpoint through_first_failure {A} (f : A -> bool) (l : list A) : list A :=
  match l with
  | [] => []
  | x :: l' => x :: (if f x then through_first_failure f l' else [])
  end.

(** The object holds nothing that [close] would have to release. *)
Record Inert (s : State) : Prop := {
  inert_disabled : disabled (self s) = Some true;
  inert_ptr : _ptr (self s) = None;
  inert_buffer_ptrs : buffer_ptrs (self s) = None;
  inert_tmp_result_buffer_ptrs : tmp_result_buffer_ptrs (self s) = None;
  inert_barrier_in_ptrs : barrier_in_ptrs (self s) = None;
  inert_barrier_out_ptrs : barrier_out_ptrs (self s) = None;
  inert_rank_data_base : rank_data_base (self s) = None;
  inert_trace : count is_resource (trace s) = 0%nat
}.

(** The traces at which the enabled branch of [__init__] creates its four
    shared regions, [tr0] being the trace when the probes are over. *)
Definition trace_after_buffer (E : Env) (ms : Z) (g : Group)
    (tr0 : list Event) : list Event :=
  tr0 ++ shared_buffer_events E ms g tr0.

Definition trace_after_tmp (E : Env) (ms : Z) (g : Group)
    (tr0 : list Event) : list Event :=
  trace_after_buffer E ms g tr0
  ++ shared_buffer_events E ms g (trace_after_buffer E ms g tr0).

Definition trace_after_rank_data (E : Env) (ms : Z) (g : Group)
    (tr0 : list Event) : list Event :=
  trace_after_tmp E ms g tr0 ++ [EvTorchEmpty 8388608].

Definition trace_after_barrier_in (E : Env) (ms : Z) (g : Group)
    (tr0 : list Event) : list Event :=
  trace_after_rank_data E ms g tr0
  ++ shared_buffer_events E 2432 g (trace_after_rank_data E ms g tr0).

Definition trace_after_barrier_out (E : Env) (ms : Z) (g : Group)
    (tr0 : list Event) : list Event :=
  trace_after_barrier_in E ms g tr0
  ++ shared_buffer_events E 2432 g (trace_after_barrier_in E ms g tr0).

(** What the enabled branch of [__init__] leaves, in full. *)
Record Built (E : Env) (g : Group) (ms : Z) (tr0 : list Event)
    (s : State) : Prop := {
  built_probes : count is_resource tr0 = 0%nat;
  built_enabled : Enabled (self s);
  built_group : group (self s) = Some g;
  built_rank : rank (self s) = Some (get_rank E g);
  built_world_size : world_size (self s) = Some (get_world_size E g);
  built_max_size : max_size (self s) = Some ms;
  built_barrier_max_size : barrier_max_size (self s) = Some 2432;
  built_buffer_ptrs :
    buffer_ptrs (self s) = Some (shared_buffer_pointers E ms g tr0);
  built_tmp_result_buffer_ptrs :
    tmp_result_buffer_ptrs (self s)
    = Some (shared_buffer_pointers E ms g (trace_after_buffer E ms g tr0));
  built_barrier_in_ptrs :
    barrier_in_ptrs (self s)
    = Some (shared_buffer_pointers E 2432 g
              (trace_after_rank_data E ms g tr0));
  built_barrier_out_ptrs :
    barrier_out_ptrs (self s)
    = Some (shared_buffer_pointers E 2432 g
              (trace_after_barrier_in E ms g tr0));
  built_trace :
    trace s
    = trace_after_barrier_out E ms g tr0
      ++ [EvInitCustomAr (get_rank E g) (get_world_size E g)]
}.

(** The device [__init__] works with: the argument itself when it is a
    [torch.device], what [torch.device(...)] makes of it otherwise. *)
Definition resolved_device (E : Env) (dev : DeviceArg)
    : Outcome TorchDevice :=
  match dev with
  | DevObj d => Ret d
  | _ => torch_device E dev
  end.

(** The state in which [__init__] stops when it gives up after storing the
    group. *)
Definition gave_up (recording : bool) (g : Group) (tr : list Event)
    : State :=
  {| self := set_group g inert; is_current_stream_capturing := recording;
     trace := tr |}.

Definition handle_ok (E : Env) (i : Z) : bool :=
  match nvmlDeviceGetHandleByIndex E i with
  | NVML_SUCCESS _ => true
  | NVML_ERROR _ => false
  end.

(** The rows of [all_data] after the broadcasts of
    [register_graph_buffers], [me] being the rank of this process in the
    default group: the row a peer broadcasts replaces the local one, the
    row this process broadcasts stays. *)
Fixpoint exchanged_rows (E : Env) (g : Group) (me : nat) (tr : list Event)
    (ranks : list (nat * nat)) (all_data : list MetaRow) : list MetaRow :=
  match ranks with
  | [] => all_data
  | (i, r) :: ranks' =>
      let row := default ((None, None) : MetaRow) (all_data !! i) in
      let row' := if (r =? me)%nat then row else peer_graph_meta E tr g r in
      exchanged_rows E g me (tr ++ [EvBroadcastObjectList g i r]) ranks'
        (<[i := row']> all_data)
  end.

Definition broadcast_event (g : Group) (ir : nat * nat) : Event :=
  EvBroadcastObjectList g (fst ir) (snd ir).

(** An enabled coordinator attached to its group stays one. *)
Definition stays_enabled (E : Env) : relation State :=
  fun s s' =>
    Enabled (self s) /\ Attached E (self s) ->
    Enabled (self s') /\ Attached E (self s').


(** * Properties *)

(** ** Symbolic execution of the monad *)

Ltac exec :=
  unfold bind, ret, raise, lift, attr, assign, emit, get_trace,
    get_stream_capturing, py_assert, subscript, nvmlCheckReturn in *;
  simpl in *.

Lemma after_nil (s : State) : after s [] = s.
Proof. destruct s; unfold after; simpl. now rewrite app_nil_r. Qed.

Lemma after_after (s : State) (a b : list Event) :
  after (after s a) b = after s (a ++ b).
Proof. unfold after; simpl. now rewrite app_assoc. Qed.

Lemma emit_after (e : Event) (s : State) : emit e s = (Ret tt, after s [e]).
Proof. reflexivity. Qed.

Lemma bind_ret {A B} (a : A) (k : A -> M B) (s : State) :
  bind (ret a) k s = k a s.
Proof. reflexivity. Qed.

Lemma bind_bind {A B C} (m : M A) (k : A -> M B) (k' : B -> M C)
    (s : State) :
  bind (bind m k) k' s = bind m (fun a => bind (k a) k') s.
Proof. unfold bind. now destruct (m s) as [[a|e] s1]. Qed.

Lemma bind_attr {A B} (f : Coordinator -> option A) (k : A -> M B)
    (s : State) (v : A) :
  f (self s) = Some v -> bind (attr f) k s = k v s.
Proof. intros H. unfold bind, attr. now rewrite H. Qed.

Lemma bind_attr_after {A B} (f : Coordinator -> option A) (k : A -> M B)
    (s : State) (evs : list Event) (v : A) :
  f (self s) = Some v -> bind (attr f) k (after s evs) = k v (after s evs).
Proof. intros H. unfold bind, attr. simpl. now rewrite H. Qed.

Lemma bind_emit {B} (e : Event) (k : unit -> M B) (s : State) :
  bind (emit e) k s = k tt (after s [e]).
Proof. reflexivity. Qed.

Lemma count_app (f : Event -> bool) (a b : list Event) :
  count f (a ++ b) = (count f a + count f b)%nat.
Proof. unfold count. now rewrite List.filter_app, length_app. Qed.

(** ** Frame reasoning *)

Section Preserves.

Context (R : relation State) `{!PreOrder R}.

Lemma preserves_ret {A} (a : A) : preserves R (ret a).
Proof. intros s. reflexivity. Qed.

Lemma preserves_raise {A} (e : Exn) : preserves R (@raise A e).
Proof. intros s. reflexivity. Qed.

Lemma preserves_lift {A} (o : Outcome A) : preserves R (lift o).
Proof. intros s. reflexivity. Qed.

Lemma preserves_nvmlCheckReturn {A} (r : NvmlReturn A) :
  preserves R (nvmlCheckReturn r).
Proof. destruct r; intros s; reflexivity. Qed.

Lemma preserves_attr {A} (f : Coordinator -> option A) : preserves R (attr f).
Proof. intros s. unfold attr. destruct (f (self s)); reflexivity. Qed.

Lemma preserves_get_trace : preserves R get_trace.
Proof. intros s. reflexivity. Qed.

Lemma preserves_get_stream_capturing : preserves R get_stream_capturing.
Proof. intros s. reflexivity. Qed.

Lemma preserves_py_assert (b : bool) : preserves R (py_assert b).
Proof. destruct b; intros s; reflexivity. Qed.

Lemma preserves_subscript {A} (l : list A) (i : nat) :
  preserves R (subscript l i).
Proof. intros s. unfold subscript. destruct (l !! i); reflexivity. Qed.

Lemma preserves_subscript_assign {A} (l : list A) (i : nat) (v : A) :
  preserves R (subscript_assign l i v).
Proof.
  intros s. unfold subscript_assign. destruct (i <? length l)%nat; reflexivity.
Qed.

Lemma preserves_bind {A B} (m : M A) (k : A -> M B) :
  preserves R m -> (forall a, preserves R (k a)) -> preserves R (bind m k).
Proof.
  intros Hm Hk s. unfold bind. specialize (Hm s).
  destruct (m s) as [[a|e] s1]; simpl in *; [|assumption].
  etransitivity; [exact Hm | apply Hk].
Qed.

Lemma preserves_try_finally {A} (body : M A) (fin : M unit) :
  preserves R body -> preserves R fin -> preserves R (try_finally body fin).
Proof.
  intros Hb Hf s. unfold try_finally. specialize (Hb s).
  destruct (body s) as [o s1]. specialize (Hf s1).
  destruct (fin s1) as [[u|e] s2]; simpl in *; etransitivity; eassumption.
Qed.

Lemma preserves_try_except {A} (body : M A) (catches : Exn -> bool)
    (handler : M A) :
  preserves R body -> preserves R handler ->
  preserves R (try_except body catches handler).
Proof.
  intros Hb Hh s. unfold try_except. specialize (Hb s).
  destruct (body s) as [[a|e] s1]; simpl in *; [assumption|].
  destruct (catches e); [|assumption].
  etransitivity; [exact Hb | apply Hh].
Qed.

Lemma preserves_comprehension {A B} (f : A -> M B) (l : list A) :
  (forall x, preserves R (f x)) -> preserves R (comprehension f l).
Proof.
  intros Hf. induction l as [|x l IH]; simpl.
  - apply preserves_ret.
  - apply preserves_bind; [apply Hf|]. intros y.
    apply preserves_bind; [apply IH|]. intros ys. apply preserves_ret.
Qed.

End Preserves.

(** The facts about the primitives that the caller supplies, then the
    combinators. *)
Ltac papply l := apply l; try typeclasses eauto.

Ltac preserve_with tac :=
  repeat first
    [ progress tac | progress cbv zeta
    | papply preserves_ret | papply preserves_raise | papply preserves_lift
    | papply preserves_nvmlCheckReturn | papply preserves_attr
    | papply preserves_get_trace | papply preserves_get_stream_capturing
    | papply preserves_py_assert | papply preserves_subscript
    | papply preserves_subscript_assign
    | papply preserves_bind; [|intros ?]
    | papply preserves_try_finally | papply preserves_try_except
    | match goal with
      | |- preserves _ (if ?b then _ else _) => destruct b
      | |- preserves _ (match ?x with _ => _ end) => destruct x
      | |- preserves _ (let '(_, _) := ?x in _) => destruct x
      end ].

#[local] Instance same_self_preorder : PreOrder same_self.
Proof.
  split; [intros s; reflexivity|].
  intros a b c H1 H2. unfold same_self in *. congruence.
Qed.

#[local] Instance same_disabled_preorder : PreOrder same_disabled.
Proof.
  split; [intros s; reflexivity|].
  intros a b c H1 H2. unfold same_disabled in *. congruence.
Qed.

Lemma same_self_emit (e : Event) : preserves same_self (emit e).
Proof. intros s. reflexivity. Qed.

(** ** The dispatch gate *)

Lemma isEligible_unaligned d n packed ws nv m b2 b8 :
  n mod 16 <> 0 -> isEligible d n packed ws nv m b2 b8 = false.
Proof.
  intros H. unfold isEligible. destruct d; [reflexivity|].
  destruct (Z.eqb_spec (n mod 16) 0); [contradiction | reflexivity].
Qed.

Lemma isEligible_at_max d packed ws nv m b2 b8 :
  isEligible d m packed ws nv m b2 b8 = false.
Proof.
  unfold isEligible. rewrite Z.ltb_irrefl.
  destruct d, (negb (m mod 16 =? 0)), (negb packed), (ws =? 2)%nat,
    (2 <? ws)%nat, nv; reflexivity.
Qed.

Lemma should_custom_ar_disabled (s : State) (inp : Tensor) :
  disabled (self s) = Some true -> should_custom_ar inp s = (Ret false, s).
Proof. intros H. unfold should_custom_ar. exec. now rewrite H. Qed.

Lemma should_custom_ar_enabled (s : State) (inp : Tensor) ms ws nv b2 b8 :
  disabled (self s) = Some false ->
  max_size (self s) = Some ms ->
  world_size (self s) = Some ws ->
  full_nvlink (self s) = Some nv ->
  max_required_workspace_size (self s) = Some [b2; b8] ->
  (2 <= ws)%nat ->
  should_custom_ar inp s =
  (Ret (isEligible false (inp_size inp) (is_weak_contiguous inp) ws nv ms
          b2 b8), s).
Proof.
  intros Hd Hm Hw Hn Hb Hws. unfold should_custom_ar, isEligible, inp_size.
  exec. rewrite Hd.
  destruct (negb (numel inp * element_size inp mod 16 =? 0)); [reflexivity|].
  destruct (negb (is_weak_contiguous inp)); [reflexivity|].
  rewrite Hw. destruct (Nat.eqb_spec ws 2) as [->|Hne].
  - rewrite Hm. destruct (numel inp * element_size inp <? ms); [|reflexivity].
    now rewrite Hb.
  - assert (Hlt : (2 <? ws)%nat = true) by (apply Nat.ltb_lt; lia).
    rewrite Hlt, Hn. destruct nv; [|reflexivity].
    rewrite Hm. destruct (numel inp * element_size inp <? ms); [|reflexivity].
    now rewrite Hb.
Qed.

Lemma should_custom_ar_state (s : State) (inp : Tensor) :
  snd (should_custom_ar inp s) = s.
Proof.
  symmetry. revert s. change (preserves eq (should_custom_ar inp)).
  unfold should_custom_ar. preserve_with idtac.
Qed.

Lemma Enabled_world_size_ge_2 (c : Coordinator) (w : nat) :
  Enabled c -> world_size c = Some w -> (2 <= w)%nat.
Proof.
  intros He Hw. destruct (en_world_size c He) as (w' & Hw' & Hin).
  rewrite Hw in Hw'. injection Hw' as <-.
  unfold _SUPPORTED_WORLD_SIZES in Hin. simpl in Hin.
  destruct Hin as [<-|[<-|[<-|[<-|[]]]]]; lia.
Qed.

(** C2.  [should_custom_ar] is the eligibility procedure of the
    specification: a disabled coordinator answers false; an enabled one
    answers [isEligible], hence false for a byte size that is not a
    multiple of 16, false for an input that is neither contiguous nor
    weakly contiguous, for world size 2 true exactly when the size is
    strictly below both the global maximum and the 16 MiB budget, for a
    larger world size true only under full-mesh NVLink and strictly below
    both the global maximum and the smaller 8 MiB budget, and false for a
    size equal to the global maximum. *)
Theorem should_custom_ar_eligibility (s : State) (inp : Tensor) :
  (disabled (self s) = Some true ->
   should_custom_ar inp s = (Ret false, s))
  /\ (Enabled (self s) ->
      exists ms ws nv,
        max_size (self s) = Some ms
        /\ world_size (self s) = Some ws
        /\ full_nvlink (self s) = Some nv
        /\ should_custom_ar inp s =
           (Ret (isEligible false (inp_size inp) (is_weak_contiguous inp)
                   ws nv ms 16777216 8388608), s)
        /\ (inp_size inp mod 16 <> 0 ->
            should_custom_ar inp s = (Ret false, s))
        /\ (is_contiguous inp = false ->
            storage_nbytes inp - storage_offset inp * element_size inp
            <> numel inp * element_size inp ->
            should_custom_ar inp s = (Ret false, s))
        /\ (ws = 2%nat -> inp_size inp mod 16 = 0 ->
            is_weak_contiguous inp = true ->
            (should_custom_ar inp s = (Ret true, s)
             <-> inp_size inp < ms /\ inp_size inp < 16777216))
        /\ ((2 < ws)%nat ->
            should_custom_ar inp s = (Ret true, s) ->
            nv = true /\ inp_size inp < ms /\ inp_size inp < 8388608)
        /\ (inp_size inp = ms ->
            should_custom_ar inp s = (Ret false, s))
        /\ 8388608 < 16777216).
Proof.
  split; [apply should_custom_ar_disabled|].
  intros He.
  destruct (en_max_size _ He) as [ms Hms].
  destruct (en_world_size _ He) as (ws & Hws & Hin).
  destruct (en_full_nvlink _ He) as (nv & Hnv & _).
  pose proof (Enabled_world_size_ge_2 _ _ He Hws) as Hge.
  pose proof (should_custom_ar_enabled s inp ms ws nv _ _
                (en_disabled _ He) Hms Hws Hnv (en_budget _ He) Hge) as Heq.
  exists ms, ws, nv.
  split; [exact Hms|]. split; [exact Hws|]. split; [exact Hnv|].
  split; [exact Heq|]. rewrite Heq. clear Heq.
  split.
  { intros Hmod. now rewrite isEligible_unaligned. }
  split.
  { intros Hc Hw. unfold isEligible, is_weak_contiguous. rewrite Hc. simpl.
    destruct (Z.eqb_spec
                (storage_nbytes inp - storage_offset inp * element_size inp)
                (numel inp * element_size inp)); [contradiction|].
    simpl. now destruct (negb (inp_size inp mod 16 =? 0)). }
  split.
  { intros -> Hmod Hpk. unfold isEligible. rewrite Hmod, Hpk. simpl. split.
    - intros Hr. injection Hr as Hr. apply andb_true_iff in Hr.
      destruct Hr as [H2 H3]. apply Z.ltb_lt in H2, H3. lia.
    - intros [H2 H3]. apply Z.ltb_lt in H2, H3. now rewrite H2, H3. }
  split.
  { intros Hlt Hr. injection Hr as Hr. unfold isEligible in Hr.
    destruct (negb (inp_size inp mod 16 =? 0)); [discriminate|].
    destruct (negb (is_weak_contiguous inp)); [discriminate|].
    destruct (Nat.eqb_spec ws 2); [lia|].
    destruct (2 <? ws)%nat; [|discriminate].
    apply andb_true_iff in Hr. destruct Hr as [Hr H3].
    apply andb_true_iff in Hr. destruct Hr as [H1 H2].
    apply Z.ltb_lt in H2, H3. auto. }
  split.
  { intros Hm. rewrite Hm. now rewrite isEligible_at_max. }
  lia.
Qed.

(** ** The capture-aware executor *)

Lemma construct_enabled_state :
  construct (default_group_env GLOO 2) false None (DevInt 0) 8388608
  = (Ret tt, enabled_state).
Proof. vm_compute. reflexivity. Qed.

Lemma enabled_coordinator_Enabled : Enabled enabled_coordinator.
Proof.
  split; simpl; eauto.
Qed.

(** C2, at a concrete coordinator: for two ranks a 1 KiB tensor is
    eligible and a tensor of exactly [max_size] bytes is not. *)
Lemma should_custom_ar_eligibility_witness :
  should_custom_ar tensor_1024 enabled_state = (Ret true, enabled_state)
  /\ should_custom_ar tensor_max enabled_state = (Ret false, enabled_state).
Proof.
  destruct (proj2 (should_custom_ar_eligibility enabled_state tensor_1024)
              enabled_coordinator_Enabled)
    as (ms & ws & nv & Hms & Hws & Hnv & Heq & _).
  destruct (proj2 (should_custom_ar_eligibility enabled_state tensor_max)
              enabled_coordinator_Enabled)
    as (ms' & ws' & nv' & Hms' & _ & _ & _ & _ & _ & _ & _ & Hmax & _).
  simpl in Hms, Hws, Hnv, Hms'.
  injection Hms as <-. injection Hws as <-. injection Hnv as <-.
  injection Hms' as <-.
  split; [rewrite Heq; vm_compute; reflexivity | apply Hmax; reflexivity].
Defined.

Lemma Enabled_set_IS_CAPTURING (c : Coordinator) (b : bool) :
  Enabled c -> Enabled (set_IS_CAPTURING b c).
Proof. intros [? ? ? ? ? ? ? ? ? ? ? ? ?]. split; simpl; eauto. Qed.

Lemma Enabled_set_ptr (c : Coordinator) (p : Z) :
  Enabled c -> Enabled (set_ptr p c).
Proof. intros [? ? ? ? ? ? ? ? ? ? ? ? ?]. split; simpl; eauto. Qed.

Lemma all_reduce_fresh (E : Env) (s : State) (inp : Tensor) (ptr : Z) :
  _ptr (self s) = Some ptr ->
  all_reduce E inp None s =
  (Ret (fresh_like E s inp),
   after s [EvTorchEmptyLike inp; EvAllReduce ptr inp (fresh_like E s inp)]).
Proof.
  intros Hp. unfold all_reduce, empty_like. exec. rewrite Hp.
  unfold after, fresh_like. simpl. now rewrite <- app_assoc.
Qed.

Lemma empty_like_fresh (E : Env) (s : State) (inp : Tensor) :
  empty_like E inp s
  = (Ret (fresh_like E s inp), after s [EvTorchEmptyLike inp]).
Proof. reflexivity. Qed.

Lemma custom_all_reduce_eligible (E : Env) (s : State) (inp : Tensor)
    (ptr : Z) (capturing : bool) :
  disabled (self s) = Some false ->
  _IS_CAPTURING (self s) = Some capturing ->
  _ptr (self s) = Some ptr ->
  should_custom_ar inp s = (Ret true, s) ->
  custom_all_reduce E inp s
  = (Ret (Some (fresh_like E s inp)),
     after s
       (EvTorchEmptyLike inp
        :: (if capturing && negb (is_current_stream_capturing s) then []
            else [EvAllReduce ptr inp (fresh_like E s inp)]))).
Proof.
  intros Hd Hc Hp Hok. unfold custom_all_reduce.
  unfold bind at 1. unfold attr at 1. rewrite Hd.
  unfold bind at 1. unfold bind at 1. rewrite Hok. simpl.
  unfold bind at 1. unfold attr at 1. rewrite Hc.
  destruct capturing; simpl.
  - unfold bind at 1. unfold get_stream_capturing at 1.
    destruct (is_current_stream_capturing s); simpl.
    + unfold bind. now rewrite (all_reduce_fresh E s inp ptr Hp).
    + reflexivity.
  - unfold bind. now rewrite (all_reduce_fresh E s inp ptr Hp).
Qed.

(** C1.  On an enabled coordinator and an input that passes the
    eligibility check, [custom_all_reduce] returns a new tensor of the
    shape and dtype of the input, and: while capturing with a graph being
    recorded it allocates the output and calls the native reduce; while
    capturing without a graph being recorded it only allocates the output
    and makes no call to the native engine; when not capturing it
    allocates the output and calls the native reduce. *)
Theorem custom_all_reduce_dispatch (E : Env) (s : State) (inp : Tensor)
    (ptr : Z) (capturing : bool) :
  Enabled (self s) ->
  _IS_CAPTURING (self s) = Some capturing ->
  _ptr (self s) = Some ptr ->
  should_custom_ar inp s = (Ret true, s) ->
  let out := fresh_like E s inp in
  shape out = shape inp /\ dtype out = dtype inp
  /\ (capturing = true -> is_current_stream_capturing s = true ->
      custom_all_reduce E inp s =
      (Ret (Some out),
       after s [EvTorchEmptyLike inp; EvAllReduce ptr inp out]))
  /\ (capturing = true -> is_current_stream_capturing s = false ->
      custom_all_reduce E inp s =
      (Ret (Some out), after s [EvTorchEmptyLike inp]))
  /\ (capturing = false ->
      custom_all_reduce E inp s =
      (Ret (Some out),
       after s [EvTorchEmptyLike inp; EvAllReduce ptr inp out])).
Proof.
  intros He Hc Hp Hok out.
  rewrite (custom_all_reduce_eligible E s inp ptr capturing
             (en_disabled _ He) Hc Hp Hok).
  fold out. split; [reflexivity|]. split; [reflexivity|].
  split; [|split].
  - intros -> ->. reflexivity.
  - intros -> ->. reflexivity.
  - intros ->. reflexivity.
Qed.

(** C1, at a concrete state: the enabled coordinator of two ranks, while
    capturing without a recording, hands back a placeholder. *)
Lemma custom_all_reduce_dispatch_witness :
  custom_all_reduce (default_group_env GLOO 2) tensor_1024 capturing_state
  = (Ret (Some (fresh_like (default_group_env GLOO 2) capturing_state
                  tensor_1024)),
     after capturing_state [EvTorchEmptyLike tensor_1024]).
Proof.
  assert (He : Enabled (self capturing_state))
    by apply Enabled_set_IS_CAPTURING, enabled_coordinator_Enabled.
  assert (Hok : should_custom_ar tensor_1024 capturing_state
                = (Ret true, capturing_state))
    by (vm_compute; reflexivity).
  exact (proj1 (proj2 (proj2 (proj2
           (custom_all_reduce_dispatch (default_group_env GLOO 2)
              capturing_state tensor_1024 42 true He eq_refl eq_refl Hok))))
           eq_refl eq_refl).
Defined.

(** ** Methods that leave the object alone *)

Lemma preserves_weaken (R R' : relation State) {A} (m : M A) :
  (forall s s', R s s' -> R' s s') -> preserves R m -> preserves R' m.
Proof. intros Hsub Hm s. apply Hsub, Hm. Qed.

Lemma same_self_same_disabled (s s' : State) :
  same_self s s' -> same_disabled s s'.
Proof. unfold same_self, same_disabled. intros ->. reflexivity. Qed.

Lemma same_self_should_custom_ar (inp : Tensor) :
  preserves same_self (should_custom_ar inp).
Proof.
  intros s. unfold same_self. now rewrite should_custom_ar_state.
Qed.

Lemma same_self_empty_like (E : Env) (inp : Tensor) :
  preserves same_self (empty_like E inp).
Proof. intros s. reflexivity. Qed.

Lemma same_self_empty_uint8 (E : Env) (n : Z) :
  preserves same_self (empty_uint8 E n).
Proof. intros s. reflexivity. Qed.

Ltac same_self_prim :=
  first [ apply same_self_emit | apply same_self_empty_like
        | apply same_self_empty_uint8 | apply same_self_should_custom_ar ].

Lemma same_self_all_reduce (E : Env) (inp : Tensor) (out : option Tensor) :
  preserves same_self (all_reduce E inp out).
Proof. unfold all_reduce. preserve_with same_self_prim. Qed.

Lemma same_self_custom_all_reduce (E : Env) (inp : Tensor) :
  preserves same_self (custom_all_reduce E inp).
Proof.
  unfold custom_all_reduce.
  preserve_with ltac:(first [same_self_prim | apply same_self_all_reduce]).
Qed.

Lemma same_self_free_shared_buffer (E : Env) (pointers : list Z) (g : Group) :
  preserves same_self (free_shared_buffer E pointers g).
Proof. unfold free_shared_buffer. preserve_with same_self_prim. Qed.

Lemma same_self_register_graph_buffers_loop (E : Env) f ranks all_data :
  preserves same_self (register_graph_buffers_loop E f ranks all_data).
Proof.
  revert all_data. induction ranks as [|[i r] ranks IH]; intros all_data; simpl.
  - apply preserves_ret. typeclasses eauto.
  - preserve_with ltac:(first [same_self_prim | apply IH]).
Qed.

Lemma same_self_register_graph_buffers (E : Env) :
  preserves same_self (register_graph_buffers E).
Proof.
  unfold register_graph_buffers.
  preserve_with
    ltac:(first [ same_self_prim
                | apply same_self_register_graph_buffers_loop ]).
Qed.

Lemma same_self_is_full_nvlink_inner (E : Env) i handle js :
  preserves same_self (is_full_nvlink_inner E i handle js).
Proof.
  induction js as [|[j p] js IH]; simpl.
  - apply preserves_ret. typeclasses eauto.
  - unfold call_nvmlDeviceGetP2PStatus.
    preserve_with ltac:(first [same_self_prim | apply IH]).
Qed.

Lemma same_self_is_full_nvlink_outer (E : Env) handles rest :
  preserves same_self (is_full_nvlink_outer E handles rest).
Proof.
  induction rest as [|[i h] rest IH]; simpl.
  - apply preserves_ret. typeclasses eauto.
  - preserve_with
      ltac:(first [ same_self_prim | apply IH
                  | apply same_self_is_full_nvlink_inner ]).
Qed.

Lemma same_self_is_full_nvlink (E : Env) (ids : list Z) :
  preserves same_self (is_full_nvlink E ids).
Proof.
  unfold is_full_nvlink, with_nvml_context, is_full_nvlink_undecorated.
  preserve_with
    ltac:(first [ same_self_prim | apply same_self_is_full_nvlink_outer ]).
  apply preserves_comprehension; [typeclasses eauto|]. intros x.
  unfold call_nvmlDeviceGetHandleByIndex. preserve_with same_self_prim.
Qed.

Lemma same_self__can_p2p_loop (E : Env) skip rank rest :
  preserves same_self (_can_p2p_loop E skip rank rest).
Proof.
  induction rest as [|i rest IH]; simpl.
  - apply preserves_ret. typeclasses eauto.
  - preserve_with ltac:(first [same_self_prim | apply IH]).
Qed.

Lemma same_self_create_shared_buffer_loop (E : Env) rank pointer hs acc :
  preserves same_self (create_shared_buffer_loop E rank pointer hs acc).
Proof.
  revert acc. induction hs as [|[i h] hs IH]; intros acc; simpl.
  - apply preserves_ret. typeclasses eauto.
  - preserve_with ltac:(first [same_self_prim | apply IH]).
Qed.

Lemma same_self_create_shared_buffer (E : Env) size g :
  preserves same_self (create_shared_buffer E size g).
Proof.
  unfold create_shared_buffer.
  preserve_with
    ltac:(first [ same_self_prim
                | apply same_self_create_shared_buffer_loop ]).
Qed.

(** ** The disabled flag is written by [__init__] alone *)

Lemma same_disabled_of_same_self {A} (m : M A) :
  preserves same_self m -> preserves same_disabled m.
Proof. apply preserves_weaken, same_self_same_disabled. Qed.

Lemma same_disabled_set_IS_CAPTURING (b : bool) :
  preserves same_disabled (assign (set_IS_CAPTURING b)).
Proof. intros s. reflexivity. Qed.

Lemma same_disabled_set_ptr (p : Z) :
  preserves same_disabled (assign (set_ptr p)).
Proof. intros s. reflexivity. Qed.

Ltac same_disabled_prim E :=
  first [ apply same_disabled_set_IS_CAPTURING
        | apply same_disabled_set_ptr
        | apply same_disabled_of_same_self;
          first [ apply same_self_emit
                | apply (same_self_free_shared_buffer E)
                | apply (same_self_register_graph_buffers E)
                | apply (same_self_custom_all_reduce E)
                | apply (same_self_all_reduce E)
                | apply same_self_should_custom_ar ] ].

Lemma same_disabled_close (E : Env) : preserves same_disabled (close E).
Proof. unfold close. preserve_with ltac:(same_disabled_prim E). Qed.

Lemma same_disabled_capture (E : Env) {A} (body : M A) :
  preserves same_disabled body -> preserves same_disabled (capture E body).
Proof.
  intros Hb. unfold capture.
  preserve_with ltac:(first [same_disabled_prim E | exact Hb]).
Qed.

Lemma same_disabled_run (E : Env) (p : Client) :
  preserves same_disabled (run E p).
Proof.
  induction p; simpl;
    try solve [preserve_with
                 ltac:(first [same_disabled_prim E | assumption])].
  all: first [ apply same_disabled_close
             | now apply same_disabled_capture
             | intros s; reflexivity ].
Qed.

Lemma custom_all_reduce_disabled (E : Env) (s : State) (inp : Tensor) :
  disabled (self s) = Some true ->
  custom_all_reduce E inp s = (Ret None, s).
Proof. intros H. unfold custom_all_reduce. exec. now rewrite H. Qed.

(** ** Construction *)

Lemma supported_world_size (w : nat) :
  existsb (Nat.eqb w) _SUPPORTED_WORLD_SIZES = true
  <-> In w _SUPPORTED_WORLD_SIZES.
Proof.
  rewrite existsb_exists. split.
  - intros (x & Hin & Heq). apply Nat.eqb_eq in Heq. now subst.
  - intros Hin. exists w. split; [assumption | apply Nat.eqb_refl].
Qed.

Lemma construct_without_native_engine (E : Env) recording g dev ms :
  custom_ar E = false ->
  construct E recording g dev ms =
  (Ret tt, {| self := inert; is_current_stream_capturing := recording;
              trace := [] |}).
Proof. intros H. unfold construct, __init__. exec. now rewrite H. Qed.

Lemma construct_nccl (E : Env) recording g dev ms :
  custom_ar E = true ->
  get_backend E g = NCCL ->
  construct E recording g dev ms =
  (Raise AssertionError,
   {| self := set_group g inert; is_current_stream_capturing := recording;
      trace := [] |}).
Proof.
  intros H Hb. unfold construct, __init__. exec. now rewrite H, Hb.
Qed.

(** C3, as the code has it.  On a group whose backend is NCCL,
    construction with the native library present raises [AssertionError]
    at its non-NCCL assertion, before any probe, collective or allocation,
    and the object it was building still has [disabled == True]; only
    without the native library does construction on such a group return
    normally, disabled. *)
Theorem construct_on_nccl_group (E : Env) (recording : bool) (g : Group)
    (dev : DeviceArg) (ms : Z) :
  get_backend E g = NCCL ->
  let r := construct E recording g dev ms in
  disabled (self (snd r)) = Some true
  /\ trace (snd r) = []
  /\ (custom_ar E = true -> fst r = Raise AssertionError)
  /\ (custom_ar E = false -> fst r = Ret tt).
Proof.
  intros Hb r. subst r. destruct (custom_ar E) eqn:Hc.
  - rewrite (construct_nccl E recording g dev ms Hc Hb). simpl.
    repeat split; congruence.
  - rewrite (construct_without_native_engine E recording g dev ms Hc).
    simpl. repeat split; congruence.
Qed.

Lemma construct_on_nccl_group_witness :
  fst (construct (default_group_env NCCL 2) false None (DevInt 0) 8388608)
  = Raise AssertionError.
Proof.
  exact (proj1 (proj2 (proj2
           (construct_on_nccl_group (default_group_env NCCL 2) false None
              (DevInt 0) 8388608 eq_refl))) eq_refl).
Defined.

(** C3 fails as stated: on an NCCL group of two ranks on one host, with
    the native library present, construction does not complete normally;
    an [AssertionError] crosses the construction boundary. *)
Lemma construct_on_nccl_group_raises :
  get_backend (default_group_env NCCL 2) None = NCCL
  /\ fst (construct (default_group_env NCCL 2) false None (DevInt 0) 8388608)
     <> Ret tt.
Proof. split; [reflexivity|]. vm_compute. discriminate. Qed.

Lemma construct_unsupported_world_size (E : Env) recording g dev ms :
  ~ In (get_world_size E g) _SUPPORTED_WORLD_SIZES ->
  disabled (self (snd (construct E recording g dev ms))) = Some true
  /\ (custom_ar E = false \/ get_backend E g <> NCCL ->
      fst (construct E recording g dev ms) = Ret tt).
Proof.
  intros Hw.
  assert (Hs : existsb (Nat.eqb (get_world_size E g)) _SUPPORTED_WORLD_SIZES
               = false).
  { destruct (existsb _ _) eqn:H; [|reflexivity].
    apply supported_world_size in H. contradiction. }
  clear Hw. unfold construct, __init__.
  unfold bind, ret, raise, attr, assign, emit, py_assert.
  cbn -[existsb].
  destruct (custom_ar E); cbn -[existsb]; [|split; reflexivity].
  destruct (get_backend E g) eqn:Hb; cbn -[existsb].
  1: split; [reflexivity | intros [?|?]; congruence].
  all: destruct (forallb id (in_the_same_node_as E g)); cbn -[existsb];
    [|split; reflexivity];
    destruct (get_world_size E g =? 1)%nat; cbn -[existsb];
    [split; reflexivity|];
    rewrite Hs; split; reflexivity.
Qed.

(** C4.  For a world size outside {2, 4, 6, 8}, world size 1 included,
    the object [__init__] leaves has [disabled == True] ([__init__]
    returns normally whenever its non-NCCL assertion holds), and in every
    state a caller can then reach, [custom_all_reduce] returns [None] and
    does nothing. *)
Theorem unsupported_world_size_is_disabled (E : Env) (recording : bool)
    (g : Group) (dev : DeviceArg) (ms : Z) :
  ~ In (get_world_size E g) [2; 4; 6; 8]%nat ->
  let s := snd (construct E recording g dev ms) in
  disabled (self s) = Some true
  /\ (custom_ar E = false \/ get_backend E g <> NCCL ->
      fst (construct E recording g dev ms) = Ret tt)
  /\ forall (p : Client) (inp : Tensor),
       let s' := snd (run E p s) in
       disabled (self s') = Some true
       /\ custom_all_reduce E inp s' = (Ret None, s').
Proof.
  intros Hw s.
  destruct (construct_unsupported_world_size E recording g dev ms Hw)
    as [Hd Hr].
  split; [exact Hd|]. split; [exact Hr|].
  intros p inp s'.
  assert (Hd' : disabled (self s') = Some true).
  { subst s'. rewrite (same_disabled_run E p s). exact Hd. }
  split; [exact Hd' | now apply custom_all_reduce_disabled].
Qed.

Lemma unsupported_world_size_is_disabled_witness :
  let E := default_group_env GLOO 3 in
  let s := snd (construct E false None (DevInt 0) 8388608) in
  fst (construct E false None (DevInt 0) 8388608) = Ret tt
  /\ disabled (self s) = Some true
  /\ custom_all_reduce E tensor_1024
       (snd (run E (With_capture (Call_custom_all_reduce tensor_1024)) s))
     = (Ret None,
        snd (run E (With_capture (Call_custom_all_reduce tensor_1024)) s)).
Proof.
  intros E s.
  assert (Hw : ~ In (get_world_size E None) [2; 4; 6; 8]%nat).
  { vm_compute. intros [H|[H|[H|[H|[]]]]]; discriminate. }
  destruct (unsupported_world_size_is_disabled E false None (DevInt 0)
              8388608 Hw) as (Hd & Hr & Hcalls).
  split; [apply Hr; right; vm_compute; discriminate|].
  split; [exact Hd|].
  exact (proj2 (Hcalls (With_capture (Call_custom_all_reduce tensor_1024))
                  tensor_1024)).
Defined.

(** ** The P2P probe *)

Lemma _can_p2p_loop_authoritative (E : Env) (rank : nat) (l : list nat)
    (s : State) :
  fst (_can_p2p_loop E false rank l s)
  = Ret (forallb (gpu_p2p_access_check E rank)
           (filter (fun i => i <> rank) l)).
Proof.
  revert s. induction l as [|i l IH]; intros s; simpl; [reflexivity|].
  destruct (Nat.eqb_spec i rank) as [->|Hne].
  - rewrite filter_cons_False by tauto. apply IH.
  - rewrite filter_cons_True by assumption. simpl. exec.
    destruct (gpu_p2p_access_check E rank i); simpl; [apply IH | reflexivity].
Qed.

(** Without the override every peer is checked, as the specification
    says. *)
Lemma _can_p2p_authoritative (E : Env) (rank world_size : nat) (s : State) :
  skip_p2p_check E = false ->
  fst (_can_p2p E rank world_size s) = Ret (queryP2PAccess E rank world_size).
Proof.
  intros Hs. unfold _can_p2p, queryP2PAccess. rewrite Hs.
  apply _can_p2p_loop_authoritative.
Qed.

(** With the override the answer is the driver's report for the first
    peer; no later peer is asked. *)
Lemma _can_p2p_loop_override (E : Env) (rank : nat) (l : list nat)
    (s : State) :
  fst (_can_p2p_loop E true rank l s)
  = Ret (match filter (fun i => i <> rank) l with
         | [] => true
         | i :: _ => can_device_access_peer E rank i
         end).
Proof.
  revert s. induction l as [|i l IH]; intros s; simpl; [reflexivity|].
  destruct (Nat.eqb_spec i rank) as [->|Hne].
  - rewrite filter_cons_False by tauto. apply IH.
  - rewrite filter_cons_True by assumption. reflexivity.
Qed.

(** C5, at the failing input: rank 0 of three, override set, the driver
    reports access to peer 1 and none to peer 2.  [_can_p2p] answers true
    after asking about peer 1 alone, while the quantification over every
    peer answers false. *)
Theorem _can_p2p_override_asks_first_peer_only :
  skip_p2p_check override_env = true
  /\ can_device_access_peer override_env 0 2 = false
  /\ _can_p2p override_env 0 3 state0
     = (Ret true,
        after state0 [EvLog LogSkippingP2PCheck; EvCanDeviceAccessPeer 0 1])
  /\ queryP2PAccess override_env 0 3 = false.
Proof. repeat split. Qed.

(** ** The shared-buffer registry *)

Lemma enumerate_from_lookup {A} (l : list A) (n i : nat) :
  enumerate_from n l !! i = (fun x => ((n + i)%nat, x)) <$> l !! i.
Proof.
  revert n i. induction l as [|x l IH]; intros n i; [reflexivity|].
  destruct i as [|i]; simpl.
  - now rewrite Nat.add_0_r.
  - rewrite IH. now rewrite Nat.add_succ_r.
Qed.

Lemma enumerate_from_length {A} (l : list A) (n : nat) :
  length (enumerate_from n l) = length l.
Proof. revert n. induction l; intros n; simpl; auto. Qed.

Lemma gathered_length {A} (rank ws : nat) (mine : A) (peer : nat -> A) :
  length (gathered rank ws mine peer) = ws.
Proof. unfold gathered. now rewrite length_map, length_seq. Qed.

Lemma gathered_lookup {A} (rank ws : nat) (mine : A) (peer : nat -> A)
    (i : nat) :
  (i < ws)%nat ->
  gathered rank ws mine peer !! i
  = Some (if (i =? rank)%nat then mine else peer i).
Proof.
  intros Hi. unfold gathered. change map with (@fmap list _) at 1.
  rewrite list_lookup_fmap, lookup_seq_lt by assumption. reflexivity.
Qed.

Lemma create_shared_buffer_loop_spec (E : Env) (rank : nat) (pointer : Z)
    (hs : list (nat * IpcHandle)) (acc : list Z) (s : State) :
  create_shared_buffer_loop E rank pointer hs acc s
  = (Ret (acc ++ map (slot_pointer E rank pointer) hs),
     after s (flat_map (slot_events rank) hs)).
Proof.
  revert acc s. induction hs as [|[i h] hs IH]; intros acc s; simpl.
  - now rewrite app_nil_r, after_nil.
  - unfold slot_pointer at 1, slot_events at 1. simpl.
    destruct (i =? rank)%nat; simpl.
    + rewrite IH. now rewrite <- app_assoc.
    + exec. rewrite IH. rewrite <- app_assoc. simpl.
      unfold after. simpl. now rewrite <- app_assoc.
Qed.

Lemma free_shared_buffer_spec (E : Env) (pointers : list Z) (g : Group)
    (s : State) :
  free_shared_buffer E pointers g s
  = match pointers !! get_rank E g with
    | Some p => (Ret tt, after s [EvCudaFree p])
    | None => (Raise IndexError, s)
    end.
Proof.
  unfold free_shared_buffer. exec. now destruct (pointers !! get_rank E g).
Qed.

(** C7.  [create_shared_buffer] returns one pointer per rank, in rank
    order: the slot of the local rank holds the address of the local
    allocation, every other slot the address obtained by opening the IPC
    handle that rank contributed to the exchange.  [free_shared_buffer]
    makes one call, [cudaFree] of the slot of the local rank, whatever the
    table holds elsewhere. *)
Theorem create_shared_buffer_pointers (E : Env) (size : Z) (g : Group)
    (s : State) :
  (get_rank E g < get_world_size E g)%nat ->
  let pointer := cudaMalloc E (trace s) size in
  let exported :=
    trace s ++ [EvCudaMalloc size; EvCudaIpcGetMemHandle pointer] in
  exists pointers s',
    create_shared_buffer E size g s = (Ret pointers, s')
    /\ length pointers = get_world_size E g
    /\ pointers !! get_rank E g = Some pointer
    /\ (forall i, (i < get_world_size E g)%nat -> i <> get_rank E g ->
        pointers !! i
        = Some (cudaIpcOpenMemHandle E (peer_ipc_handle E exported g i)))
    /\ (forall s2, free_shared_buffer E pointers g s2
                   = (Ret tt, after s2 [EvCudaFree pointer]))
    /\ (forall (l : list Z) (p : Z) s2,
          l !! get_rank E g = Some p ->
          free_shared_buffer E l g s2 = (Ret tt, after s2 [EvCudaFree p])).
Proof.
  intros Hr pointer exported.
  unfold create_shared_buffer. exec.
  rewrite create_shared_buffer_loop_spec. simpl.
  rewrite <- app_assoc. simpl. fold pointer. fold exported.
  set (handles := gathered _ _ _ _).
  eexists _, _. split; [reflexivity|].
  assert (Hlk : forall i, (i < get_world_size E g)%nat ->
            map (slot_pointer E (get_rank E g) pointer) (enumerate handles)
              !! i
            = Some (if (i =? get_rank E g)%nat then pointer
                    else cudaIpcOpenMemHandle E
                           (peer_ipc_handle E exported g i))).
  { intros i Hi. change map with (@fmap list _) at 1.
    rewrite list_lookup_fmap. unfold enumerate.
    rewrite enumerate_from_lookup. subst handles.
    rewrite gathered_lookup by assumption. simpl.
    unfold slot_pointer. simpl. now destruct (i =? get_rank E g)%nat. }
  split.
  { rewrite length_map. unfold enumerate.
    rewrite enumerate_from_length. apply gathered_length. }
  split.
  { rewrite Hlk by assumption. now rewrite Nat.eqb_refl. }
  split.
  { intros i Hi Hne. rewrite Hlk by assumption.
    destruct (Nat.eqb_spec i (get_rank E g)); [contradiction | reflexivity]. }
  split.
  { intros s2. rewrite free_shared_buffer_spec, Hlk by assumption.
    now rewrite Nat.eqb_refl. }
  intros l p s2 Hl. now rewrite free_shared_buffer_spec, Hl.
Qed.

Lemma create_shared_buffer_pointers_witness :
  let E := default_group_env GLOO 2 in
  exists s',
    create_shared_buffer E 4096 None state0 = (Ret [4096; 4002], s')
    /\ free_shared_buffer E [4096; 4002] None s'
       = (Ret tt, after s' [EvCudaFree 4096]).
Proof.
  intros E.
  assert (Hr : (get_rank E None < get_world_size E None)%nat)
    by (vm_compute; lia).
  destruct (create_shared_buffer_pointers E 4096 None state0 Hr)
    as (pointers & s' & Hc & _ & _ & _ & Hf & _).
  exists s'.
  assert (Hp : pointers = [4096; 4002]).
  { assert (Hv : create_shared_buffer E 4096 None state0
                 = (Ret [4096; 4002],
                    snd (create_shared_buffer E 4096 None state0)))
      by (vm_compute; reflexivity).
    rewrite Hc in Hv. now injection Hv. }
  subst pointers. split; [exact Hc | apply Hf].
Defined.

(** ** The NVLink probe *)

Lemma probe_events_app (E : Env) (a b : list (NvmlHandle * NvmlHandle)) :
  probe_events E (a ++ b)
  = probe_events E a
    ++ (if forallb (nvlink_ok E) a then probe_events E b else []).
Proof.
  induction a as [|p a IH]; simpl; [reflexivity|].
  unfold nvlink_ok at 1.
  destruct (nvmlDeviceGetP2PStatus E p.1 p.2) as [[|c]|c]; simpl;
    try reflexivity.
  now rewrite IH.
Qed.

Lemma is_full_nvlink_inner_spec (E : Env) (i : nat) (handle : NvmlHandle)
    (js : list (nat * NvmlHandle)) (s : State) :
  is_full_nvlink_inner E i handle js s
  = (Ret (if forallb (nvlink_ok E) (pairs_from js (i, handle))
          then None else Some false),
     after s (probe_events E (pairs_from js (i, handle)))).
Proof.
  revert s. induction js as [|[j p] js IH]; intros s.
  - simpl. now rewrite after_nil.
  - unfold pairs_from. simpl. fold (pairs_from js (i, handle)).
    unfold bind at 1. destruct (i <? j)%nat; simpl.
    + unfold try_except, call_nvmlDeviceGetP2PStatus, nvlink_ok. exec.
      destruct (nvmlDeviceGetP2PStatus E handle p) as [[|c]|c]; simpl.
      * rewrite IH. unfold after. simpl. now rewrite <- app_assoc.
      * reflexivity.
      * unfold after. simpl. now rewrite <- app_assoc.
    + apply IH.
Qed.

Lemma is_full_nvlink_outer_spec (E : Env)
    (handles rest : list (nat * NvmlHandle)) (s : State) :
  is_full_nvlink_outer E handles rest s
  = (Ret (if forallb (nvlink_ok E) (flat_map (pairs_from handles) rest)
          then None else Some false),
     after s (probe_events E (flat_map (pairs_from handles) rest))).
Proof.
  revert s. induction rest as [|[i h] rest IH]; intros s.
  - simpl. now rewrite after_nil.
  - simpl. unfold bind at 1. rewrite is_full_nvlink_inner_spec.
    rewrite forallb_app, probe_events_app.
    destruct (forallb (nvlink_ok E) (pairs_from handles (i, h))); simpl.
    + rewrite IH, after_after. reflexivity.
    + now rewrite app_nil_r.
Qed.

Lemma comprehension_handles (E : Env) (ids : list Z) (hs : list NvmlHandle)
    (s : State) :
  device_handles E ids = Some hs ->
  comprehension (call_nvmlDeviceGetHandleByIndex E) ids s
  = (Ret hs, after s (map EvNvmlDeviceGetHandleByIndex ids)).
Proof.
  revert hs s. induction ids as [|i ids IH]; intros hs s H; simpl in *.
  - injection H as <-. now rewrite after_nil.
  - unfold bind at 1. unfold call_nvmlDeviceGetHandleByIndex at 1. exec.
    destruct (nvmlDeviceGetHandleByIndex E i) as [h|c]; [|discriminate].
    destruct (device_handles E ids) as [hs'|]; [|discriminate].
    injection H as <-. simpl.
    rewrite (IH hs' _ eq_refl). simpl. unfold after. simpl.
    now rewrite <- app_assoc.
Qed.

Lemma is_full_nvlink_undecorated_spec (E : Env) (ids : list Z)
    (hs : list NvmlHandle) (s : State) :
  device_handles E ids = Some hs ->
  is_full_nvlink_undecorated E ids s
  = (Ret (forallb (nvlink_ok E) (pairs hs)),
     after s (map EvNvmlDeviceGetHandleByIndex ids
              ++ probe_events E (pairs hs))).
Proof.
  intros H. unfold is_full_nvlink_undecorated. unfold bind at 1.
  rewrite (comprehension_handles E ids hs s H).
  unfold bind at 1. rewrite is_full_nvlink_outer_spec. fold (pairs hs).
  rewrite after_after. now destruct (forallb (nvlink_ok E) (pairs hs)).
Qed.

#[local] Instance grows_without_shutdown_preorder :
  PreOrder grows_without_shutdown.
Proof.
  split.
  - intros s. exists []. split; [now rewrite app_nil_r | reflexivity].
  - intros a b c (e1 & H1 & C1) (e2 & H2 & C2). exists (e1 ++ e2). split.
    + now rewrite H2, H1, app_assoc.
    + rewrite count_app. lia.
Qed.






(** Under the decorator the shutdown is the last call, on both
    outcomes of the decorated function. *)
Lemma with_nvml_context_shutdown (E : Env) {A} (fn : M A) (s : State) :
  nvmlInit E = NVML_SUCCESS tt ->
  with_nvml_context E fn s
  = (fst (fn (after s [EvNvmlInit])),
     after (snd (fn (after s [EvNvmlInit]))) [EvNvmlShutdown]).
Proof.
  intros Hi. unfold with_nvml_context. exec. rewrite Hi. simpl.
  unfold try_finally. fold (after s [EvNvmlInit]).
  now destruct (fn (after s [EvNvmlInit])).
Qed.



Lemma nvlink_ok_true (E : Env) (q : NvmlHandle * NvmlHandle) :
  nvlink_ok E q = true
  <-> nvmlDeviceGetP2PStatus E (fst q) (snd q)
      = NVML_SUCCESS NVML_P2P_STATUS_OK.
Proof.
  unfold nvlink_ok.
  destruct (nvmlDeviceGetP2PStatus E q.1 q.2) as [[|c]|c];
    split; congruence.
Qed.

Lemma status_queries_app (a b : list Event) :
  status_queries (a ++ b) = status_queries a ++ status_queries b.
Proof. unfold status_queries. apply flat_map_app. Qed.

Lemma status_queries_handles (ids : list Z) :
  status_queries (map EvNvmlDeviceGetHandleByIndex ids) = [].
Proof. induction ids; simpl; auto. Qed.







(** ** Capture sessions *)

Lemma register_graph_buffers_loop_ok (E : Env) (g : Group)
    (ranks : list nat) (n : nat) (all_data : list MetaRow) (s : State) :
  group (self s) = Some g ->
  (n + length ranks <= length all_data)%nat ->
  exists d evs,
    register_graph_buffers_loop E group (enumerate_from n ranks) all_data s
    = (Ret d, after s evs)
    /\ count is_registration evs = 0%nat
    /\ count is_graph_meta_query evs = 0%nat.
Proof.
  revert n all_data s.
  induction ranks as [|r ranks IH]; intros n all_data s Hg Hlen; simpl.
  - exists all_data, []. now rewrite after_nil.
  - simpl in Hlen.
    destruct (lookup_lt_is_Some_2 all_data n ltac:(lia)) as [row Hrow].
    unfold bind at 1. unfold subscript. rewrite Hrow. unfold ret at 1.
    unfold bind at 1. unfold attr at 1. rewrite Hg.
    unfold bind at 1. unfold get_trace at 1.
    unfold bind at 1. rewrite emit_after.
    set (row' := if (r =? get_rank E None)%nat then row
                 else peer_graph_meta E (trace s) g r).
    destruct (IH (S n) (<[n := row']> all_data)
                (after s [EvBroadcastObjectList g n r]) Hg)
      as (d & evs & Hrun & Hc1 & Hc2).
    { rewrite length_insert. lia. }
    exists d, (EvBroadcastObjectList g n r :: evs).
    rewrite Hrun, after_after. repeat split; assumption.
Qed.

Lemma register_graph_buffers_once (E : Env) (s : State) (g : Group)
    (ptr : Z) :
  _ptr (self s) = Some ptr ->
  group (self s) = Some g ->
  rank (self s) = Some (get_rank E g) ->
  Group_consistent E g ->
  exists evs,
    register_graph_buffers E s = (Ret tt, after s evs)
    /\ count is_registration evs = 1%nat
    /\ count is_graph_meta_query evs = 1%nat.
Proof.
  intros Hp Hg Hr [Hlt Hlen]. unfold register_graph_buffers.
  unfold bind at 1. unfold attr at 1. rewrite Hp.
  unfold bind at 1. unfold get_trace at 1.
  unfold bind at 1. rewrite emit_after.
  destruct (get_graph_buffer_ipc_meta E (trace s) ptr) as [handle offset].
  unfold bind at 1. rewrite emit_after, after_after.
  unfold bind at 1. unfold attr at 1. simpl self. rewrite Hg.
  unfold bind at 1. unfold attr at 1. simpl self. rewrite Hr.
  unfold bind at 1. unfold subscript_assign.
  rewrite length_replicate.
  apply Nat.ltb_lt in Hlt. rewrite Hlt. apply Nat.ltb_lt in Hlt.
  unfold ret at 1.
  unfold bind at 1. unfold attr at 1. simpl self. rewrite Hg.
  set (s1 := after s _).
  set (all_data := <[_ := _]> _).
  destruct (register_graph_buffers_loop_ok E g
              (merge_sort Nat.le (get_process_group_ranks E g)) 0 all_data s1)
    as (d & evs & Hrun & Hc1 & Hc2).
  { exact Hg. }
  { subst all_data. rewrite length_insert, length_replicate. simpl.
    rewrite (Permutation_length (merge_sort_Permutation _ _)). lia. }
  unfold enumerate. unfold bind at 1. rewrite Hrun.
  unfold bind at 1. unfold attr at 1. simpl self. rewrite Hp.
  rewrite emit_after. subst s1. rewrite !after_after.
  eexists. split; [reflexivity|].
  rewrite !count_app. rewrite Hc1, Hc2. split; reflexivity.
Qed.

Lemma capture_unfold (E : Env) {A} (body : M A) (s : State) :
  capture E body s
  = let region := body (with_self s (set_IS_CAPTURING true (self s))) in
    let left := with_self (snd region)
                  (set_IS_CAPTURING false (self (snd region))) in
    match (let* d := attr disabled in
           if negb d then register_graph_buffers E else ret tt) left with
    | (Ret _, s2) => (fst region, s2)
    | (Raise e, s2) => (Raise e, s2)
    end.
Proof.
  unfold capture, try_finally. unfold bind at 1. unfold assign at 1.
  fold (with_self s (set_IS_CAPTURING true (self s))).
  destruct (body _) as [o s1]. simpl.
  unfold bind at 1. unfold assign at 1. reflexivity.
Qed.

Lemma same_self_capture_exit (E : Env) :
  preserves same_self
    (let* d := attr disabled in
     if negb d then register_graph_buffers E else ret tt).
Proof.
  preserve_with ltac:(apply same_self_register_graph_buffers).
Qed.

(** C6.  Whatever the body of the capture region does and however it is
    left, by returning or by an exception, when [capture] is over
    [_IS_CAPTURING] is false; a disabled coordinator makes no call at the
    exit; an enabled one makes exactly one registration pass (one
    [get_graph_buffer_ipc_meta] and one [register_graph_buffers] of the
    native engine) and the outcome of the body is passed on. *)
Theorem capture_registers_once (E : Env) {A : Type} (body : M A)
    (s : State) :
  let region := body (with_self s (set_IS_CAPTURING true (self s))) in
  let r := capture E body s in
  _IS_CAPTURING (self (snd r)) = Some false
  /\ (disabled (self (snd region)) = Some true ->
      fst r = fst region /\ trace (snd r) = trace (snd region))
  /\ (Enabled (self (snd region)) -> Attached E (self (snd region)) ->
      fst r = fst region
      /\ exists evs,
           trace (snd r) = trace (snd region) ++ evs
           /\ count is_registration evs = 1%nat
           /\ count is_graph_meta_query evs = 1%nat).
Proof.
  intros region r. subst r. rewrite capture_unfold. fold region.
  cbv zeta.
  set (left := with_self (snd region) _).
  split; [|split].
  - pose proof (same_self_capture_exit E left) as Hs. unfold same_self in Hs.
    destruct ((let* d := attr disabled in _) left) as [[u|e] s2];
      simpl in *; rewrite Hs; reflexivity.
  - intros Hd. unfold bind, attr. subst left. simpl. rewrite Hd. simpl.
    split; reflexivity.
  - intros He (g & Hg & Hr & Hc).
    destruct (en_ptr _ He) as [ptr Hp].
    destruct (register_graph_buffers_once E left g ptr)
      as (evs & Hrun & Hc1 & Hc2); try assumption.
    unfold bind, attr. subst left. simpl. rewrite (en_disabled _ He). simpl.
    simpl in Hrun. rewrite Hrun. simpl. split; [reflexivity|].
    exists evs. auto.
Qed.

Lemma capture_registers_once_witness :
  let E := default_group_env GLOO 2 in
  let r := capture E (@raise unit RuntimeError) enabled_state in
  fst r = Raise RuntimeError
  /\ exists evs,
       trace (snd r) = trace enabled_state ++ evs
       /\ count is_registration evs = 1%nat
       /\ count is_graph_meta_query evs = 1%nat.
Proof.
  intros E r.
  assert (He : Enabled (self capturing_state))
    by apply Enabled_set_IS_CAPTURING, enabled_coordinator_Enabled.
  assert (Ha : Attached E (self capturing_state)).
  { exists None. split; [reflexivity|]. split; [reflexivity|].
    split; vm_compute; lia. }
  exact (proj2 (proj2 (capture_registers_once E (@raise unit RuntimeError)
                         enabled_state)) He Ha).
Defined.

(** ** Teardown *)

Lemma close_disabled (E : Env) (s : State) :
  disabled (self s) = Some true -> close E s = (Ret tt, s).
Proof. intros H. unfold close. exec. now rewrite H. Qed.

Lemma close_zeroed (E : Env) (s : State) :
  disabled (self s) = Some false -> _ptr (self s) = Some 0 ->
  close E s = (Ret tt, s).
Proof.
  intros Hd Hp. unfold close. exec. rewrite Hd. simpl. now rewrite Hp.
Qed.

(** [close] on a live handle, step by step: the dispose, then the four
    frees in order, each indexing its table with the rank of the
    default group; [_ptr] is zeroed after the last. *)
Lemma close_live (E : Env) (s : State) (p : Z) (b t bi bo : list Z) :
  disabled (self s) = Some false ->
  _ptr (self s) = Some p -> p <> 0 ->
  buffer_ptrs (self s) = Some b ->
  tmp_result_buffer_ptrs (self s) = Some t ->
  barrier_in_ptrs (self s) = Some bi ->
  barrier_out_ptrs (self s) = Some bo ->
  close E s
  = let r := get_rank E None in
    match b !! r with
    | None => (Raise IndexError, after s [EvDispose p])
    | Some x1 =>
    match t !! r with
    | None => (Raise IndexError, after s [EvDispose p; EvCudaFree x1])
    | Some x2 =>
    match bi !! r with
    | None =>
        (Raise IndexError,
         after s [EvDispose p; EvCudaFree x1; EvCudaFree x2])
    | Some x3 =>
    match bo !! r with
    | None =>
        (Raise IndexError,
         after s [EvDispose p; EvCudaFree x1; EvCudaFree x2; EvCudaFree x3])
    | Some x4 =>
        (Ret tt,
         with_self
           (after s [EvDispose p; EvCudaFree x1; EvCudaFree x2;
                     EvCudaFree x3; EvCudaFree x4])
           (set_ptr 0 (self s)))
    end end end end.
Proof.
  intros Hd Hp Hnz Hb Ht Hbi Hbo. unfold close.
  rewrite (bind_attr disabled _ s false Hd). cbn [negb].
  rewrite bind_bind, (bind_attr _ptr _ s p Hp), bind_ret.
  apply Z.eqb_neq in Hnz. rewrite Hnz. cbn [negb].
  rewrite (bind_attr _ptr _ s p Hp), bind_emit.
  rewrite (bind_attr_after buffer_ptrs _ s _ b Hb).
  unfold bind at 1. rewrite free_shared_buffer_spec. cbv zeta.
  destruct (b !! get_rank E None) as [x1|]; [|reflexivity].
  rewrite after_after.
  rewrite (bind_attr_after tmp_result_buffer_ptrs _ s _ t Ht).
  unfold bind at 1. rewrite free_shared_buffer_spec.
  destruct (t !! get_rank E None) as [x2|]; [|reflexivity].
  rewrite after_after.
  rewrite (bind_attr_after barrier_in_ptrs _ s _ bi Hbi).
  unfold bind at 1. rewrite free_shared_buffer_spec.
  destruct (bi !! get_rank E None) as [x3|]; [|reflexivity].
  rewrite after_after.
  rewrite (bind_attr_after barrier_out_ptrs _ s _ bo Hbo).
  unfold bind at 1. rewrite free_shared_buffer_spec.
  destruct (bo !! get_rank E None) as [x4|]; [|reflexivity].
  rewrite after_after. reflexivity.
Qed.

(** Where the rank of the default group indexes the four tables,
    [close] is idempotent: one dispose, four frees, a zeroed handle, and
    nothing on the second call. *)
Lemma close_idempotent_in_range (E : Env) (s : State) (p : Z)
    (b t bi bo : list Z) (x1 x2 x3 x4 : Z) :
  disabled (self s) = Some false ->
  _ptr (self s) = Some p -> p <> 0 ->
  buffer_ptrs (self s) = Some b ->
  tmp_result_buffer_ptrs (self s) = Some t ->
  barrier_in_ptrs (self s) = Some bi ->
  barrier_out_ptrs (self s) = Some bo ->
  b !! get_rank E None = Some x1 ->
  t !! get_rank E None = Some x2 ->
  bi !! get_rank E None = Some x3 ->
  bo !! get_rank E None = Some x4 ->
  let s1 :=
    with_self
      (after s [EvDispose p; EvCudaFree x1; EvCudaFree x2; EvCudaFree x3;
                EvCudaFree x4])
      (set_ptr 0 (self s)) in
  close E s = (Ret tt, s1) /\ close E s1 = (Ret tt, s1)
  /\ __del__ E s1 = (Ret tt, s1).
Proof.
  intros Hd Hp Hnz Hb Ht Hbi Hbo H1 H2 H3 H4 s1.
  rewrite (close_live E s p b t bi bo) by assumption.
  cbv zeta. rewrite H1, H2, H3, H4.
  split; [reflexivity|]. unfold __del__.
  split; apply close_zeroed; subst s1; simpl;
    first [assumption | reflexivity].
Qed.

(** C9, at the failing input.  The process has rank 2 in the default
    group and rank 0 in the group {2, 3} its coordinator is attached to,
    so the pointer tables have two slots.  [close] disposes the engine,
    then [free_shared_buffer], called without the group, indexes the
    table with rank 2 and raises [IndexError]: nothing is freed and
    [_ptr] keeps its value.  A second [close] disposes the same handle
    again. *)
Theorem close_twice_disposes_twice :
  let E := subgroup_env in
  let s := subgroup_state in
  let r1 := close E s in
  let r2 := close E (snd r1) in
  fst (construct E false (Some 1%nat) (DevInt 2) 8388608) = Ret tt
  /\ disabled (self s) = Some false
  /\ get_rank E (Some 1%nat) = 0%nat /\ get_rank E None = 2%nat
  /\ buffer_ptrs (self s) = Some [32768; 18002]
  /\ fst r1 = Raise IndexError
  /\ trace (snd r1) = trace s ++ [EvDispose 42]
  /\ _ptr (self (snd r1)) = Some 42
  /\ trace (snd r2) = trace s ++ [EvDispose 42; EvDispose 42]
  /\ count is_dispose (trace (snd r2)) = 2%nat
  /\ count is_free (trace (snd r2)) = 0%nat.
Proof. vm_compute. repeat split. Qed.

(** ** What [close] leaves of the coordinator *)

#[local] Instance ptr_zeroed_preorder : PreOrder ptr_zeroed.
Proof.
  split.
  - intros s. now left.
  - intros a b c [H1|H1] [H2|H2]; unfold ptr_zeroed; rewrite H2, H1;
      [now left | now right | now right | now right].
Qed.

Lemma ptr_zeroed_of_same_self {A} (m : M A) :
  preserves same_self m -> preserves ptr_zeroed m.
Proof. apply preserves_weaken. intros s s' H. now left. Qed.

Lemma ptr_zeroed_close (E : Env) : preserves ptr_zeroed (close E).
Proof.
  unfold close.
  preserve_with
    ltac:(first [ apply ptr_zeroed_of_same_self;
                  first [ apply same_self_emit
                        | apply (same_self_free_shared_buffer E) ]
                | (intros s; now right) ]).
Qed.

(** C10.  [close] on an enabled coordinator leaves [disabled] false and
    changes nothing of the object but [_ptr], which it zeroes when it
    runs to its end on a live handle.  The dispatch gate therefore
    answers after [close] what it answered before, and for an input it
    accepts [custom_all_reduce] still returns a tensor, not [None]. *)
Theorem close_leaves_coordinator_enabled (E : Env) (s : State)
    (inp : Tensor) :
  Enabled (self s) ->
  let s' := snd (close E s) in
  disabled (self s') = Some false
  /\ (self s' = self s \/ self s' = set_ptr 0 (self s))
  /\ (fst (close E s) = Ret tt -> _ptr (self s') = Some 0)
  /\ fst (should_custom_ar inp s') = fst (should_custom_ar inp s)
  /\ (fst (should_custom_ar inp s) = Ret true ->
      exists out, fst (custom_all_reduce E inp s') = Ret (Some out)).
Proof.
  intros He s'.
  pose proof (ptr_zeroed_close E s) as Hz. fold s' in Hz.
  assert (He' : Enabled (self s')).
  { destruct Hz as [->| ->]; [assumption | now apply Enabled_set_ptr]. }
  assert (Hsame : fst (should_custom_ar inp s')
                  = fst (should_custom_ar inp s)).
  { destruct (en_max_size _ He) as [ms Hms].
    destruct (en_world_size _ He) as (ws & Hws & Hin).
    destruct (en_full_nvlink _ He) as (nv & Hnv & _).
    pose proof (Enabled_world_size_ge_2 _ _ He Hws) as Hge.
    rewrite (should_custom_ar_enabled s inp ms ws nv _ _
               (en_disabled _ He) Hms Hws Hnv (en_budget _ He) Hge).
    rewrite (should_custom_ar_enabled s' inp ms ws nv 16777216 8388608);
      try assumption; try reflexivity.
    - apply (en_disabled _ He').
    - destruct Hz as [->| ->]; assumption.
    - destruct Hz as [->| ->]; assumption.
    - destruct Hz as [->| ->]; assumption.
    - apply (en_budget _ He'). }
  split; [apply (en_disabled _ He')|]. split; [exact Hz|].
  split; [|split; [exact Hsame|]].
  - intros Hret. destruct (en_ptr _ He) as [p Hp].
    destruct (Z.eq_dec p 0) as [->|Hnz].
    + subst s'. rewrite (close_zeroed E s (en_disabled _ He) Hp). exact Hp.
    + destruct (en_buffer_ptrs _ He) as [b Hb].
      destruct (en_tmp_result_buffer_ptrs _ He) as [t Ht].
      destruct (en_barrier_in_ptrs _ He) as [bi Hbi].
      destruct (en_barrier_out_ptrs _ He) as [bo Hbo].
      subst s'. revert Hret.
      rewrite (close_live E s p b t bi bo (en_disabled _ He) Hp Hnz Hb Ht
                 Hbi Hbo).
      cbv zeta.
      destruct (b !! _); [|discriminate].
      destruct (t !! _); [|discriminate].
      destruct (bi !! _); [|discriminate].
      destruct (bo !! _); [|discriminate].
      reflexivity.
  - intros Hok. rewrite <- Hsame in Hok.
    assert (Hok' : should_custom_ar inp s' = (Ret true, s')).
    { pose proof (should_custom_ar_state s' inp) as Hst.
      destruct (should_custom_ar inp s') as [o st]. simpl in *.
      congruence. }
    destruct (en_capturing _ He') as [c Hc].
    destruct (en_ptr _ He') as [p Hp].
    rewrite (custom_all_reduce_eligible E s' inp p c (en_disabled _ He')
               Hc Hp Hok').
    eexists. reflexivity.
Qed.

Lemma close_leaves_coordinator_enabled_witness :
  let E := default_group_env GLOO 2 in
  let s' := snd (close E enabled_state) in
  disabled (self s') = Some false
  /\ fst (should_custom_ar tensor_1024 s') = Ret true
  /\ exists out, fst (custom_all_reduce E tensor_1024 s') = Ret (Some out).
Proof.
  intros E s'.
  destruct (close_leaves_coordinator_enabled E enabled_state tensor_1024
              enabled_coordinator_Enabled) as (Hd & _ & _ & Hs & Hc).
  assert (Hok : fst (should_custom_ar tensor_1024 enabled_state) = Ret true)
    by (vm_compute; reflexivity).
  split; [exact Hd|]. split; [|exact (Hc Hok)].
  fold s' in Hs. now rewrite Hs.
Defined.

(** ** What construction yields *)

Lemma create_shared_buffer_eq (E : Env) (size : Z) (g : Group) (s : State) :
  create_shared_buffer E size g s
  = (Ret (shared_buffer_pointers E size g (trace s)),
     after s (shared_buffer_events E size g (trace s))).
Proof.
  unfold create_shared_buffer. exec.
  rewrite create_shared_buffer_loop_spec. simpl.
  unfold shared_buffer_pointers, shared_buffer_events, shared_buffer_handles.
  unfold after. simpl. rewrite <- !app_assoc. reflexivity.
Qed.

Lemma run_same_self {A} (m : M A) (s s' : State) (o : Outcome A) :
  preserves same_self m -> m s = (o, s') -> self s' = self s.
Proof. intros Hm Hrun. specialize (Hm s). now rewrite Hrun in Hm. Qed.

Ltac red_init :=
  cbn -[existsb is_full_nvlink _can_p2p create_shared_buffer Nat.ltb
        Nat.leb].

(** A construction that returns leaves either a disabled object or an
    enabled one, attached to the group it was given. *)
Lemma construct_returns (E : Env) (recording : bool) (g : Group)
    (dev : DeviceArg) (ms : Z) (s : State) :
  construct E recording g dev ms = (Ret tt, s) ->
  disabled (self s) = Some true
  \/ (Enabled (self s)
      /\ group (self s) = Some g
      /\ rank (self s) = Some (get_rank E g)
      /\ world_size (self s) = Some (get_world_size E g)
      /\ max_size (self s) = Some ms).
Proof.
  unfold construct, __init__.
  unfold bind, ret, raise, attr, assign, emit, py_assert, lift, subscript.
  red_init.
  destruct (custom_ar E); red_init; [|intros [= <-]; now left].
  destruct (Backend_eqb (get_backend E g) NCCL); red_init; [discriminate|].
  destruct (forallb id (in_the_same_node_as E g)); red_init;
    [|intros [= <-]; now left].
  destruct (get_world_size E g =? 1)%nat; red_init;
    [intros [= <-]; now left|].
  destruct (existsb (Nat.eqb (get_world_size E g)) _SUPPORTED_WORLD_SIZES)
    eqn:Hsup; red_init; [|intros [= <-]; now left].
  apply supported_world_size in Hsup.
  destruct dev as [i|str|d];
    [ destruct (torch_device E (DevInt i)) as [d|e]; red_init; [|discriminate]
    | destruct (torch_device E (DevStr str)) as [d|e]; red_init;
      [|discriminate]
    | red_init ].
  all: destruct (device_ids E) as [ids|e]; red_init; [|discriminate].
  all: destruct (index d) as [idx|]; red_init; [|discriminate].
  all: destruct (ids !! idx) as [phys|]; red_init; [|discriminate].
  all: destruct (is_cuda E); red_init; [|discriminate].
  all: match goal with
       | |- context [is_full_nvlink ?E' ?l ?s0] =>
           pose proof (same_self_is_full_nvlink E' l s0) as Hs1;
           unfold same_self in Hs1;
           destruct (is_full_nvlink E' l s0) as [[nv|e] [c1 cap1 tr1]];
           simpl in Hs1; [subst c1 | discriminate]
       end; red_init.
  all: destruct ((2 <? get_world_size E g)%nat && negb nv) eqn:Hnv; red_init;
    [intros [= <-]; now left|].
  all: match goal with
       | |- context [_can_p2p ?E' ?r ?w ?s0] =>
           pose proof (same_self__can_p2p_loop E' (skip_p2p_check E') r
                         (seq 0 w) s0) as Hs2;
           unfold same_self in Hs2; fold (_can_p2p E' r w) in Hs2;
           destruct (_can_p2p E' r w s0) as [[ok|e] [c2 cap2 tr2]];
           simpl in Hs2; [subst c2 | discriminate]
       end; red_init.
  all: destruct ok; red_init; [|intros [= <-]; now left].
  all: repeat (rewrite create_shared_buffer_eq; red_init).
  all: intros [= <-]; right; simpl.
  all: split; [|repeat split; reflexivity].
  all: split; simpl; eauto.
  all: exists nv; split; [reflexivity|]; intros Hne.
  all: assert (Hgt : (2 <? get_world_size E g)%nat = true)
         by (apply Nat.ltb_lt; unfold _SUPPORTED_WORLD_SIZES in Hsup;
             simpl in Hsup;
             destruct Hsup as [H|[H|[H|[H|[]]]]]; rewrite <- H in *;
             first [lia | congruence]).
  all: rewrite Hgt in Hnv; now destruct nv.
Qed.

Lemma construct_attached (E : Env) (recording : bool) (g : Group)
    (dev : DeviceArg) (ms : Z) (s : State) :
  Group_consistent E g ->
  construct E recording g dev ms = (Ret tt, s) ->
  disabled (self s) = Some false ->
  Enabled (self s) /\ Attached E (self s).
Proof.
  intros Hg Hc Hd.
  destruct (construct_returns E recording g dev ms s Hc)
    as [Ht|(He & Hgr & Hr & _)]; [congruence|].
  split; [exact He|]. exists g. auto.
Qed.

(** * Further properties *)

(** ** Every outcome of construction *)

#[local] Instance grows_without_preorder (f : Event -> bool) :
  PreOrder (grows_without f).
Proof.
  split.
  - intros s. exists []. split; [now rewrite app_nil_r | reflexivity].
  - intros a b c (e1 & H1 & C1) (e2 & H2 & C2). exists (e1 ++ e2). split.
    + now rewrite H2, H1, app_assoc.
    + rewrite count_app. lia.
Qed.

Lemma grows_without_emit (f : Event -> bool) (e : Event) :
  f e = false -> preserves (grows_without f) (emit e).
Proof.
  intros H s. exists [e]. split; [reflexivity|].
  unfold count. simpl. now rewrite H.
Qed.

Ltac no_resource := apply grows_without_emit; reflexivity.

Lemma count_cons (f : Event -> bool) (e : Event) (l : list Event) :
  count f (e :: l) = ((if f e then 1 else 0) + count f l)%nat.
Proof. unfold count. simpl. now destruct (f e). Qed.

Lemma count_nil (f : Event -> bool) : count f [] = 0%nat.
Proof. reflexivity. Qed.

Lemma probe_is_full_nvlink_inner (E : Env) i handle js :
  preserves (grows_without is_resource) (is_full_nvlink_inner E i handle js).
Proof.
  induction js as [|[j p] js IH]; simpl.
  - apply preserves_ret. typeclasses eauto.
  - unfold call_nvmlDeviceGetP2PStatus.
    preserve_with ltac:(first [no_resource | apply IH]).
Qed.

Lemma probe_is_full_nvlink_outer (E : Env) handles rest :
  preserves (grows_without is_resource)
    (is_full_nvlink_outer E handles rest).
Proof.
  induction rest as [|[i h] rest IH]; simpl.
  - apply preserves_ret. typeclasses eauto.
  - preserve_with
      ltac:(first [ no_resource | apply IH
                  | apply probe_is_full_nvlink_inner ]).
Qed.

Lemma probe_is_full_nvlink (E : Env) (ids : list Z) :
  preserves (grows_without is_resource) (is_full_nvlink E ids).
Proof.
  unfold is_full_nvlink, with_nvml_context, is_full_nvlink_undecorated.
  preserve_with
    ltac:(first [ no_resource | apply probe_is_full_nvlink_outer ]).
  apply preserves_comprehension; [typeclasses eauto|]. intros x.
  unfold call_nvmlDeviceGetHandleByIndex. preserve_with no_resource.
Qed.

Lemma probe__can_p2p_loop (E : Env) skip rank rest :
  preserves (grows_without is_resource) (_can_p2p_loop E skip rank rest).
Proof.
  induction rest as [|i rest IH]; simpl.
  - apply preserves_ret. typeclasses eauto.
  - preserve_with ltac:(first [no_resource | apply IH]).
Qed.

Ltac count_events :=
  repeat first [rewrite count_app | rewrite count_cons | rewrite count_nil].

Lemma construct_cases (E : Env) (recording : bool) (g : Group)
    (dev : DeviceArg) (ms : Z) :
  let r := construct E recording g dev ms in
  Inert (snd r) \/ (fst r = Ret tt /\ exists tr0, Built E g ms tr0 (snd r)).
Proof.
  unfold construct, __init__.
  unfold bind, ret, raise, attr, assign, emit, py_assert, lift, subscript.
  red_init.
  destruct (custom_ar E); red_init; [|left; split; reflexivity].
  destruct (Backend_eqb (get_backend E g) NCCL); red_init;
    [left; split; reflexivity|].
  destruct (forallb id (in_the_same_node_as E g)); red_init;
    [|left; split; reflexivity].
  destruct (get_world_size E g =? 1)%nat; red_init;
    [left; split; reflexivity|].
  destruct (existsb (Nat.eqb (get_world_size E g)) _SUPPORTED_WORLD_SIZES)
    eqn:Hsup; red_init; [|left; split; reflexivity].
  apply supported_world_size in Hsup.
  destruct dev as [i|str|d];
    [ destruct (torch_device E (DevInt i)) as [d|e]; red_init;
      [|left; split; reflexivity]
    | destruct (torch_device E (DevStr str)) as [d|e]; red_init;
      [|left; split; reflexivity]
    | red_init ].
  all: destruct (device_ids E) as [ids|e]; red_init;
    [|left; split; reflexivity].
  all: destruct (index d) as [idx|]; red_init; [|left; split; reflexivity].
  all: destruct (ids !! idx) as [phys|]; red_init;
    [|left; split; reflexivity].
  all: destruct (is_cuda E); red_init; [|left; split; reflexivity].
  all: match goal with
       | |- context [is_full_nvlink ?E' ?l ?s0] =>
           pose proof (same_self_is_full_nvlink E' l s0) as Hs1;
           pose proof (probe_is_full_nvlink E' l s0) as (ev1 & Ht1 & Hq1);
           unfold same_self in Hs1;
           destruct (is_full_nvlink E' l s0) as [[nv|e] [c1 cap1 tr1]];
           simpl in Hs1, Ht1; subst c1 tr1
       end; red_init.
  2, 4, 6: left; split; try reflexivity; cbn [trace];
    count_events; rewrite ?Hq1; reflexivity.
  all: destruct ((2 <? get_world_size E g)%nat && negb nv) eqn:Hnv; red_init.
  1, 3, 5: left; split; try reflexivity; cbn [trace];
    count_events; rewrite ?Hq1; reflexivity.
  all: match goal with
       | |- context [_can_p2p ?E' ?r ?w ?s0] =>
           pose proof (same_self__can_p2p_loop E' (skip_p2p_check E') r
                         (seq 0 w) s0) as Hs2;
           pose proof (probe__can_p2p_loop E' (skip_p2p_check E') r
                         (seq 0 w) s0) as (ev2 & Ht2 & Hq2);
           unfold same_self in Hs2;
           fold (_can_p2p E' r w) in Hs2, Ht2;
           destruct (_can_p2p E' r w s0) as [[ok|e] [c2 cap2 tr2]];
           simpl in Hs2, Ht2; subst c2 tr2
       end; red_init.
  2, 4, 6: left; split; try reflexivity; cbn [trace];
    count_events; rewrite ?Hq1, ?Hq2; reflexivity.
  all: destruct ok; red_init.
  2, 4, 6: left; split; try reflexivity; cbn [trace];
    count_events; rewrite ?Hq1, ?Hq2; reflexivity.
  all: repeat (rewrite create_shared_buffer_eq; red_init).
  all: right; split; [reflexivity|].
  all: exists ((EvAllGather g phys :: ev1) ++ ev2).
  all: split; try reflexivity.
  all: try (count_events; rewrite Hq1, Hq2; reflexivity).
  all: split; simpl; eauto.
  all: exists nv; split; [reflexivity|]; intros Hne.
  all: assert (Hgt : (2 <? get_world_size E g)%nat = true)
         by (apply Nat.ltb_lt; unfold _SUPPORTED_WORLD_SIZES in Hsup;
             simpl in Hsup;
             destruct Hsup as [H|[H|[H|[H|[]]]]]; rewrite <- H in *;
             first [lia | congruence]).
  all: rewrite Hgt in Hnv; now destruct nv.
Qed.

Lemma count_sub (f h : Event -> bool) (l : list Event) :
  (forall e, f e = true -> h e = true) ->
  count h l = 0%nat -> count f l = 0%nat.
Proof.
  intros Hsub. induction l as [|e l IH]; [reflexivity|].
  rewrite !count_cons. specialize (Hsub e).
  destruct (f e), (h e); try lia; intros; try (apply IH; lia).
Qed.

Lemma count_slot_events (f : Event -> bool) (rank : nat)
    (l : list (nat * IpcHandle)) :
  (forall h, f (EvCudaIpcOpenMemHandle h) = false) ->
  count f (flat_map (slot_events rank) l) = 0%nat.
Proof.
  intros Hf. induction l as [|[i h] l IH]; [reflexivity|].
  simpl. rewrite count_app, IH. unfold slot_events. simpl.
  destruct (i =? rank)%nat; [reflexivity|].
  rewrite count_cons, Hf. reflexivity.
Qed.

Lemma shared_buffer_pointers_length (E : Env) (size : Z) (g : Group)
    (tr : list Event) :
  length (shared_buffer_pointers E size g tr) = get_world_size E g.
Proof.
  unfold shared_buffer_pointers, shared_buffer_handles, enumerate.
  now rewrite length_map, enumerate_from_length, gathered_length.
Qed.

Lemma shared_buffer_pointers_local (E : Env) (size : Z) (g : Group)
    (tr : list Event) :
  (get_rank E g < get_world_size E g)%nat ->
  shared_buffer_pointers E size g tr !! get_rank E g
  = Some (cudaMalloc E tr size).
Proof.
  intros Hr. unfold shared_buffer_pointers, shared_buffer_handles, enumerate.
  change map with (@fmap list _) at 1.
  rewrite list_lookup_fmap, enumerate_from_lookup.
  rewrite gathered_lookup by assumption. simpl.
  unfold slot_pointer. simpl. now rewrite Nat.eqb_refl.
Qed.

(** X1.  A construction that does not end enabled, whether [__init__]
    returned or raised, leaves an object with [disabled == True] that holds
    nothing: no [_ptr], no pointer table, and no allocation, IPC export or
    mapping, handle exchange or engine initialisation was made.  Its
    finaliser [__del__] then makes no call and does not raise. *)
Theorem construct_disabled_holds_nothing (E : Env) (recording : bool)
    (g : Group) (dev : DeviceArg) (ms : Z) :
  let r := construct E recording g dev ms in
  disabled (self (snd r)) <> Some false ->
  disabled (self (snd r)) = Some true
  /\ _ptr (self (snd r)) = None
  /\ buffer_ptrs (self (snd r)) = None
  /\ tmp_result_buffer_ptrs (self (snd r)) = None
  /\ barrier_in_ptrs (self (snd r)) = None
  /\ barrier_out_ptrs (self (snd r)) = None
  /\ count is_resource (trace (snd r)) = 0%nat
  /\ __del__ E (snd r) = (Ret tt, snd r).
Proof.
  intros r Hd.
  destruct (construct_cases E recording g dev ms) as [Hi|(_ & tr0 & Hb)];
    fold r in Hi || fold r in Hb.
  - destruct Hi. repeat split; try assumption.
    unfold __del__. now apply close_disabled.
  - destruct Hd. apply (en_disabled _ (built_enabled _ _ _ _ _ Hb)).
Qed.

Lemma construct_disabled_holds_nothing_witness :
  let r := construct (default_group_env NCCL 2) false None (DevInt 0)
             8388608 in
  fst r = Raise AssertionError
  /\ _ptr (self (snd r)) = None
  /\ __del__ (default_group_env NCCL 2) (snd r) = (Ret tt, snd r).
Proof.
  intros r.
  assert (Hd : disabled (self (snd r)) <> Some false)
    by (vm_compute; discriminate).
  destruct (construct_disabled_holds_nothing (default_group_env NCCL 2)
              false None (DevInt 0) 8388608 Hd)
    as (_ & Hp & _ & _ & _ & _ & _ & Hdel).
  split; [vm_compute; reflexivity|]. split; [exact Hp | exact Hdel].
Defined.

Lemma count_malloc_shared_buffer_events (E : Env) (size : Z) (g : Group)
    (tr : list Event) :
  count is_malloc (shared_buffer_events E size g tr) = 1%nat.
Proof.
  unfold shared_buffer_events. cbv zeta.
  now rewrite count_app, count_slot_events.
Qed.

Lemma count_gather_shared_buffer_events (E : Env) (size : Z) (g : Group)
    (tr : list Event) :
  count is_gather_object (shared_buffer_events E size g tr) = 1%nat.
Proof.
  unfold shared_buffer_events. cbv zeta.
  now rewrite count_app, count_slot_events.
Qed.

Lemma count_init_shared_buffer_events (E : Env) (size : Z) (g : Group)
    (tr : list Event) :
  count is_engine_init (shared_buffer_events E size g tr) = 0%nat.
Proof.
  unfold shared_buffer_events. cbv zeta.
  now rewrite count_app, count_slot_events.
Qed.

(** X2.  A construction that ends with [disabled == False] returned
    normally; its world size is one of 2, 4, 6, 8, it recorded the rank and
    world size of its group and the [max_size] it was given, NVLink is
    full whenever more than two ranks take part, each of the four pointer
    tables has one entry per rank, and it made exactly four [cudaMalloc]
    calls, four handle exchanges and one [init_custom_ar]. *)
Theorem construct_enabled_owns_four_regions (E : Env) (recording : bool)
    (g : Group) (dev : DeviceArg) (ms : Z) :
  let r := construct E recording g dev ms in
  let c := self (snd r) in
  disabled c = Some false ->
  fst r = Ret tt
  /\ In (get_world_size E g) [2; 4; 6; 8]%nat
  /\ group c = Some g
  /\ rank c = Some (get_rank E g)
  /\ world_size c = Some (get_world_size E g)
  /\ max_size c = Some ms
  /\ ((2 < get_world_size E g)%nat -> full_nvlink c = Some true)
  /\ (exists b t bi bo,
        buffer_ptrs c = Some b /\ tmp_result_buffer_ptrs c = Some t
        /\ barrier_in_ptrs c = Some bi /\ barrier_out_ptrs c = Some bo
        /\ length b = get_world_size E g /\ length t = get_world_size E g
        /\ length bi = get_world_size E g
        /\ length bo = get_world_size E g)
  /\ count is_malloc (trace (snd r)) = 4%nat
  /\ count is_gather_object (trace (snd r)) = 4%nat
  /\ count is_engine_init (trace (snd r)) = 1%nat.
Proof.
  intros r c Hd. subst c.
  destruct (construct_cases E recording g dev ms) as [Hi|(Hr & tr0 & Hb)];
    fold r in Hi || fold r in Hr, Hb.
  { rewrite (inert_disabled _ Hi) in Hd. discriminate. }
  destruct Hb as [Hq He Hg Hrk Hws Hms Hbm Hb Ht Hbi Hbo Htr].
  split; [exact Hr|]. split.
  { destruct (en_world_size _ He) as (w & Hw & Hin).
    rewrite Hws in Hw. now injection Hw as <-. }
  split; [exact Hg|]. split; [exact Hrk|]. split; [exact Hws|].
  split; [exact Hms|]. split.
  { intros Hlt. destruct (en_full_nvlink _ He) as (nv & Hnv & Himp).
    rewrite Hnv. f_equal. apply Himp. rewrite Hws. intros [= H]. lia. }
  split.
  { eexists _, _, _, _. repeat split; try eassumption;
      apply shared_buffer_pointers_length. }
  rewrite Htr.
  unfold trace_after_barrier_out, trace_after_barrier_in,
    trace_after_rank_data, trace_after_tmp, trace_after_buffer.
  repeat split; count_events;
    rewrite ?count_malloc_shared_buffer_events,
      ?count_gather_shared_buffer_events, ?count_init_shared_buffer_events.
  all: rewrite (count_sub _ is_resource tr0) by
      (try assumption; intros []; simpl; congruence).
  all: reflexivity.
Qed.

Lemma construct_enabled_owns_four_regions_witness :
  let r := construct (default_group_env GLOO 2) false None (DevInt 0)
             8388608 in
  fst r = Ret tt /\ count is_malloc (trace (snd r)) = 4%nat.
Proof.
  intros r.
  assert (Hd : disabled (self (snd r)) = Some false)
    by (vm_compute; reflexivity).
  destruct (construct_enabled_owns_four_regions (default_group_env GLOO 2)
              false None (DevInt 0) 8388608 Hd)
    as (Hr & _ & _ & _ & _ & _ & _ & _ & Hm & _).
  split; [exact Hr | exact Hm].
Defined.

(** X3.  On a group that passes the checks of backend, host and world
    size, a [device] argument that cannot be used makes [__init__] raise
    before any collective or probe: the exception of [torch.device] for a
    malformed device, the exception raised while the visible devices are
    listed, [TypeError] for a device without an index, and [IndexError] for
    an index beyond the visible devices. *)
Theorem construct_device_errors (E : Env) (recording : bool) (g : Group)
    (dev : DeviceArg) (ms : Z) :
  custom_ar E = true ->
  get_backend E g <> NCCL ->
  forallb id (in_the_same_node_as E g) = true ->
  In (get_world_size E g) [2; 4; 6; 8]%nat ->
  let r := construct E recording g dev ms in
  (forall e, resolved_device E dev = Raise e ->
     fst r = Raise e /\ trace (snd r) = [])
  /\ (forall d e, resolved_device E dev = Ret d ->
        device_ids E = Raise e ->
        fst r = Raise e /\ trace (snd r) = [])
  /\ (forall d ids, resolved_device E dev = Ret d ->
        device_ids E = Ret ids -> index d = None ->
        fst r = Raise TypeError /\ trace (snd r) = [])
  /\ (forall d ids i, resolved_device E dev = Ret d ->
        device_ids E = Ret ids -> index d = Some i -> ids !! i = None ->
        fst r = Raise IndexError /\ trace (snd r) = []).
Proof.
  intros Hc Hb Hn Hw r. subst r.
  assert (Hne : (get_world_size E g =? 1)%nat = false).
  { apply Nat.eqb_neq. simpl in Hw.
    destruct Hw as [H|[H|[H|[H|[]]]]]; lia. }
  apply supported_world_size in Hw.
  assert (Hbe : Backend_eqb (get_backend E g) NCCL = false)
    by (destruct (get_backend E g); [congruence | reflexivity..]).
  unfold construct, __init__.
  unfold bind, ret, raise, attr, assign, emit, py_assert, lift, subscript.
  red_init. rewrite Hc. red_init. rewrite Hbe. red_init. rewrite Hn.
  red_init. rewrite Hne. red_init. rewrite Hw. red_init.
  unfold resolved_device.
  repeat split; intros;
    repeat match goal with
           | H : _ = Raise _ |- _ => rewrite H
           | H : _ = Ret _ |- _ => rewrite H
           | H : index _ = _ |- _ => rewrite H
           | H : _ !! _ = _ |- _ => rewrite H
           end;
    destruct dev; red_init;
    repeat match goal with
           | H : _ = Raise _ |- _ => rewrite H
           | H : _ = Ret _ |- _ => first [rewrite H | injection H as ->]
           | H : index _ = _ |- _ => rewrite H
           | H : _ !! _ = _ |- _ => rewrite H
           end; red_init; try reflexivity; try discriminate.
Qed.

Lemma construct_device_errors_witness :
  let r := construct (default_group_env GLOO 2) false None (DevInt (-1))
             8388608 in
  fst r = Raise RuntimeError /\ trace (snd r) = [].
Proof.
  intros r.
  assert (Hb : get_backend (default_group_env GLOO 2) None <> NCCL)
    by discriminate.
  assert (Hw : In (get_world_size (default_group_env GLOO 2) None)
                 [2; 4; 6; 8]%nat) by (now left).
  exact (proj1 (construct_device_errors (default_group_env GLOO 2) false
                  None (DevInt (-1)) 8388608 eq_refl Hb eq_refl Hw)
           RuntimeError eq_refl).
Defined.

(** X4.  The checks [__init__] makes before it looks at the device stop
    it without a collective, a probe or an allocation: a group that spans
    hosts logs one warning, world size 1 logs nothing, any other world
    size outside {2, 4, 6, 8} logs one warning naming the size; each time
    [__init__] returns normally with only the two flags and the group
    set. *)
Theorem construct_early_exits (E : Env) (recording : bool) (g : Group)
    (dev : DeviceArg) (ms : Z) :
  custom_ar E = true ->
  get_backend E g <> NCCL ->
  let r := construct E recording g dev ms in
  (forallb id (in_the_same_node_as E g) = false ->
   r = (Ret tt, gave_up recording g [EvLog LogSpansAcrossNodes]))
  /\ (forallb id (in_the_same_node_as E g) = true ->
      get_world_size E g = 1%nat ->
      r = (Ret tt, gave_up recording g []))
  /\ (forallb id (in_the_same_node_as E g) = true ->
      ~ In (get_world_size E g) [1; 2; 4; 6; 8]%nat ->
      r = (Ret tt,
           gave_up recording g
             [EvLog (LogUnsupportedWorldSize (get_world_size E g))])).
Proof.
  intros Hc Hb r. subst r.
  assert (Hbe : Backend_eqb (get_backend E g) NCCL = false)
    by (destruct (get_backend E g); [congruence | reflexivity..]).
  unfold construct, __init__.
  unfold bind, ret, raise, attr, assign, emit, py_assert, lift, subscript.
  red_init. rewrite Hc. red_init. rewrite Hbe. red_init.
  split; [|split].
  - intros ->. reflexivity.
  - intros -> Hone. red_init. rewrite Hone. reflexivity.
  - intros -> Hw.
    assert (Hne : (get_world_size E g =? 1)%nat = false).
    { apply Nat.eqb_neq. intros H. apply Hw. left. now rewrite H. }
    assert (Hs : existsb (Nat.eqb (get_world_size E g))
                   _SUPPORTED_WORLD_SIZES = false).
    { destruct (existsb _ _) eqn:H; [|reflexivity].
      apply supported_world_size in H. destruct Hw. now right. }
    red_init. rewrite Hne. red_init. rewrite Hs. reflexivity.
Qed.

Lemma construct_early_exits_witness :
  construct (default_group_env GLOO 3) false None (DevStr "cuda:9") 8388608
  = (Ret tt, gave_up false None [EvLog (LogUnsupportedWorldSize 3)]).
Proof.
  assert (Hb : get_backend (default_group_env GLOO 3) None <> NCCL)
    by discriminate.
  assert (Hw : ~ In (get_world_size (default_group_env GLOO 3) None)
                 [1; 2; 4; 6; 8]%nat).
  { simpl. intros [H|[H|[H|[H|[H|[]]]]]]; discriminate. }
  exact (proj2 (proj2 (construct_early_exits (default_group_env GLOO 3) false
                         None (DevStr "cuda:9") 8388608 eq_refl Hb))
           eq_refl Hw).
Defined.

(** X5.  [all_reduce] and [register_graph_buffers] do not look at
    [disabled].  On a coordinator that construction did not enable they
    raise [AttributeError] at [self._ptr]; [all_reduce] without a supplied
    output has allocated one by then, and neither has called the native
    engine or a collective. *)
Theorem disabled_coordinator_unguarded_methods (E : Env) (recording : bool)
    (g : Group) (dev : DeviceArg) (ms : Z) (inp out : Tensor) :
  let s := snd (construct E recording g dev ms) in
  disabled (self s) <> Some false ->
  all_reduce E inp None s
  = (Raise AttributeError, after s [EvTorchEmptyLike inp])
  /\ all_reduce E inp (Some out) s = (Raise AttributeError, s)
  /\ register_graph_buffers E s = (Raise AttributeError, s).
Proof.
  intros s Hd.
  destruct (construct_cases E recording g dev ms) as [Hi|(_ & tr0 & Hb)];
    fold s in Hi || fold s in Hb.
  - pose proof (inert_ptr _ Hi) as Hp.
    unfold all_reduce, register_graph_buffers, empty_like.
    unfold bind, ret, attr, emit, get_trace. simpl. rewrite Hp.
    repeat split.
  - destruct Hd. apply (en_disabled _ (built_enabled _ _ _ _ _ Hb)).
Qed.

Lemma disabled_coordinator_unguarded_methods_witness :
  let E := default_group_env GLOO 3 in
  let s := snd (construct E false None (DevInt 0) 8388608) in
  register_graph_buffers E s = (Raise AttributeError, s).
Proof.
  intros E s.
  assert (Hd : disabled (self s) <> Some false)
    by (vm_compute; discriminate).
  exact (proj2 (proj2 (disabled_coordinator_unguarded_methods E false None
                         (DevInt 0) 8388608 tensor_1024 tensor_1024 Hd))).
Defined.

(** ** Teardown of what construction built *)

Lemma exported_pointers_app (a b : list Event) :
  exported_pointers (a ++ b) = exported_pointers a ++ exported_pointers b.
Proof. unfold exported_pointers. apply flat_map_app. Qed.

Lemma exported_pointers_quiet (l : list Event) :
  count is_resource l = 0%nat -> exported_pointers l = [].
Proof.
  induction l as [|e l IH]; [reflexivity|].
  rewrite count_cons. destruct e; simpl; intros H;
    first [discriminate | apply IH; exact H].
Qed.

Lemma exported_pointers_slot_events (rank : nat)
    (l : list (nat * IpcHandle)) :
  exported_pointers (flat_map (slot_events rank) l) = [].
Proof.
  induction l as [|[i h] l IH]; [reflexivity|].
  simpl. rewrite exported_pointers_app, IH. unfold slot_events. simpl.
  now destruct (i =? rank)%nat.
Qed.

Lemma exported_pointers_shared_buffer_events (E : Env) (size : Z)
    (g : Group) (tr : list Event) :
  exported_pointers (shared_buffer_events E size g tr)
  = [cudaMalloc E tr size].
Proof.
  unfold shared_buffer_events. cbv zeta.
  rewrite exported_pointers_app, exported_pointers_slot_events.
  reflexivity.
Qed.

(** X6.  Where the process has the same rank in the default group as in
    the group of its coordinator, [close] undoes what construction
    exported: on a coordinator that construction enabled, with a live
    engine handle, it disposes the handle, then frees exactly the
    pointers construction obtained from [cudaMalloc] and exported, each
    once and in the order of their creation, zeroes [_ptr], and a second
    [close] does nothing. *)
Theorem close_frees_what_construction_exported (E : Env) (recording : bool)
    (g : Group) (dev : DeviceArg) (ms : Z) (p : Z) :
  let s := snd (construct E recording g dev ms) in
  disabled (self s) = Some false ->
  (get_rank E g < get_world_size E g)%nat ->
  get_rank E None = get_rank E g ->
  _ptr (self s) = Some p -> p <> 0 ->
  exists s',
    close E s = (Ret tt, s')
    /\ trace s'
       = trace s ++ EvDispose p :: map EvCudaFree (exported_pointers (trace s))
    /\ length (exported_pointers (trace s)) = 4%nat
    /\ _ptr (self s') = Some 0
    /\ close E s' = (Ret tt, s').
Proof.
  intros s Hd Hlt Hrk Hp Hnz.
  destruct (construct_cases E recording g dev ms) as [Hi|(_ & tr0 & Hb)];
    fold s in Hi || fold s in Hb.
  { rewrite (inert_disabled _ Hi) in Hd. discriminate. }
  destruct Hb as [Hq He Hg Hr Hws Hms Hbm Hb Ht Hbi Hbo Htr].
  destruct (close_idempotent_in_range E s p _ _ _ _
              (cudaMalloc E tr0 ms)
              (cudaMalloc E (trace_after_buffer E ms g tr0) ms)
              (cudaMalloc E (trace_after_rank_data E ms g tr0) 2432)
              (cudaMalloc E (trace_after_barrier_in E ms g tr0) 2432)
              Hd Hp Hnz Hb Ht Hbi Hbo)
    as (H1 & H2 & _);
    try (rewrite Hrk; now apply shared_buffer_pointers_local).
  assert (Hex : exported_pointers (trace s)
                = [cudaMalloc E tr0 ms;
                   cudaMalloc E (trace_after_buffer E ms g tr0) ms;
                   cudaMalloc E (trace_after_rank_data E ms g tr0) 2432;
                   cudaMalloc E (trace_after_barrier_in E ms g tr0) 2432]).
  { rewrite Htr.
    unfold trace_after_barrier_out, trace_after_barrier_in,
      trace_after_rank_data, trace_after_tmp, trace_after_buffer.
    rewrite !exported_pointers_app.
    rewrite !exported_pointers_shared_buffer_events.
    rewrite (exported_pointers_quiet tr0 Hq). reflexivity. }
  eexists. split; [exact H1|]. rewrite Hex.
  split; [reflexivity|]. split; [reflexivity|].
  split; [reflexivity | exact H2].
Qed.

Lemma close_frees_what_construction_exported_witness :
  let E := default_group_env GLOO 2 in
  let s := snd (construct E false None (DevInt 0) 8388608) in
  exists s',
    close E s = (Ret tt, s')
    /\ trace s'
       = trace s ++ EvDispose 42 :: map EvCudaFree (exported_pointers (trace s))
    /\ close E s' = (Ret tt, s').
Proof.
  intros E s.
  assert (Hd : disabled (self s) = Some false) by (vm_compute; reflexivity).
  assert (Hlt : (get_rank E None < get_world_size E None)%nat)
    by (vm_compute; lia).
  assert (Hp : _ptr (self s) = Some 42) by (vm_compute; reflexivity).
  assert (Hnz : 42 <> 0) by discriminate.
  destruct (close_frees_what_construction_exported E false None (DevInt 0)
              8388608 42 Hd Hlt eq_refl Hp Hnz)
    as (s' & H1 & H2 & _ & _ & H3).
  exists s'. auto.
Defined.

Lemma close_returned_zeroes (E : Env) (s : State) :
  Enabled (self s) -> fst (close E s) = Ret tt ->
  self (snd (close E s)) = set_ptr 0 (self s)
  \/ (_ptr (self s) = Some 0 /\ close E s = (Ret tt, s)).
Proof.
  intros He Hret. destruct (en_ptr _ He) as [p Hp].
  destruct (Z.eq_dec p 0) as [->|Hnz].
  - right. split; [exact Hp|].
    apply (close_zeroed E s (en_disabled _ He) Hp).
  - left.
    destruct (en_buffer_ptrs _ He) as [b Hb].
    destruct (en_tmp_result_buffer_ptrs _ He) as [t Ht].
    destruct (en_barrier_in_ptrs _ He) as [bi Hbi].
    destruct (en_barrier_out_ptrs _ He) as [bo Hbo].
    revert Hret.
    rewrite (close_live E s p b t bi bo (en_disabled _ He) Hp Hnz Hb Ht
               Hbi Hbo).
    cbv zeta.
    destruct (b !! _); [|discriminate].
    destruct (t !! _); [|discriminate].
    destruct (bi !! _); [|discriminate].
    destruct (bo !! _); [|discriminate].
    reflexivity.
Qed.

(** X7.  Nothing stops a reduction after teardown: once [close] has
    returned on an enabled coordinator that is not capturing, an input
    the gate accepted before is still accepted, and [custom_all_reduce]
    allocates an output and calls the native reduce with the zeroed
    handle 0. *)
Theorem custom_all_reduce_after_close_uses_handle_zero (E : Env)
    (s : State) (inp : Tensor) :
  Enabled (self s) ->
  fst (close E s) = Ret tt ->
  _IS_CAPTURING (self s) = Some false ->
  fst (should_custom_ar inp s) = Ret true ->
  let s' := snd (close E s) in
  custom_all_reduce E inp s'
  = (Ret (Some (fresh_like E s' inp)),
     after s'
       [EvTorchEmptyLike inp; EvAllReduce 0 inp (fresh_like E s' inp)]).
Proof.
  intros He Hret Hcap Hok s'.
  assert (Hself : self s' = set_ptr 0 (self s)).
  { destruct (close_returned_zeroes E s He Hret) as [H|[Hp Hc]];
      [exact H|].
    subst s'. rewrite Hc. simpl. destruct (self s). simpl in *.
    now rewrite Hp. }
  assert (He' : Enabled (self s'))
    by (rewrite Hself; now apply Enabled_set_ptr).
  assert (Hok' : should_custom_ar inp s' = (Ret true, s')).
  { destruct (en_max_size _ He) as [ms Hms].
    destruct (en_world_size _ He) as (ws & Hws & Hin).
    destruct (en_full_nvlink _ He) as (nv & Hnv & _).
    pose proof (Enabled_world_size_ge_2 _ _ He Hws) as Hge.
    rewrite (should_custom_ar_enabled s inp ms ws nv _ _
               (en_disabled _ He) Hms Hws Hnv (en_budget _ He) Hge) in Hok.
    cbn [fst] in Hok.
    rewrite (should_custom_ar_enabled s' inp ms ws nv 16777216 8388608);
      try assumption; try (rewrite Hself; assumption).
    - now rewrite Hok.
    - apply (en_disabled _ He').
    - apply (en_budget _ He'). }
  rewrite (custom_all_reduce_eligible E s' inp 0 false (en_disabled _ He'));
    try assumption; try (rewrite Hself; simpl; assumption).
  - reflexivity.
  - rewrite Hself. reflexivity.
Qed.

Lemma custom_all_reduce_after_close_uses_handle_zero_witness :
  let E := default_group_env GLOO 2 in
  let s' := snd (close E enabled_state) in
  custom_all_reduce E tensor_1024 s'
  = (Ret (Some (fresh_like E s' tensor_1024)),
     after s'
       [EvTorchEmptyLike tensor_1024;
        EvAllReduce 0 tensor_1024 (fresh_like E s' tensor_1024)]).
Proof.
  intros E s'.
  assert (Hret : fst (close E enabled_state) = Ret tt)
    by (vm_compute; reflexivity).
  assert (Hok : fst (should_custom_ar tensor_1024 enabled_state) = Ret true)
    by (vm_compute; reflexivity).
  exact (custom_all_reduce_after_close_uses_handle_zero E enabled_state
           tensor_1024 enabled_coordinator_Enabled Hret eq_refl Hok).
Defined.

(** ** The probes at their edges *)

Lemma device_handles_length (E : Env) (ids : list Z) (hs : list NvmlHandle) :
  device_handles E ids = Some hs -> length hs = length ids.
Proof.
  revert hs. induction ids as [|i ids IH]; intros hs H; simpl in H.
  - now injection H as <-.
  - destruct (nvmlDeviceGetHandleByIndex E i); [|discriminate].
    destruct (device_handles E ids) as [hs'|]; [|discriminate].
    injection H as <-. simpl. f_equal. now apply IH.
Qed.

Lemma is_full_nvlink_run (E : Env) (ids : list Z) (hs : list NvmlHandle)
    (s : State) :
  nvmlInit E = NVML_SUCCESS tt ->
  device_handles E ids = Some hs ->
  is_full_nvlink E ids s
  = (Ret (forallb (nvlink_ok E) (pairs hs)),
     after s (EvNvmlInit :: map EvNvmlDeviceGetHandleByIndex ids
              ++ probe_events E (pairs hs) ++ [EvNvmlShutdown])).
Proof.
  intros Hi Hd. unfold is_full_nvlink.
  rewrite with_nvml_context_shutdown by assumption.
  rewrite (is_full_nvlink_undecorated_spec E ids hs _ Hd). simpl.
  rewrite !after_after. f_equal. f_equal. simpl.
  now rewrite <- app_assoc.
Qed.

(** X8.  With no device or a single one there is no pair to ask about:
    [is_full_nvlink] opens the session, looks up the handles, closes the
    session and answers true without a status query. *)
Theorem is_full_nvlink_without_pairs (E : Env) (ids : list Z)
    (hs : list NvmlHandle) (s : State) :
  nvmlInit E = NVML_SUCCESS tt ->
  device_handles E ids = Some hs ->
  (length ids <= 1)%nat ->
  is_full_nvlink E ids s
  = (Ret true,
     after s (EvNvmlInit :: map EvNvmlDeviceGetHandleByIndex ids
              ++ [EvNvmlShutdown])).
Proof.
  intros Hi Hd Hlen.
  rewrite (is_full_nvlink_run E ids hs s Hi Hd).
  apply device_handles_length in Hd.
  assert (Hp : pairs hs = []).
  { destruct hs as [|h [|h' hs]]; simpl in Hd; try reflexivity. lia. }
  rewrite Hp. reflexivity.
Qed.

Lemma is_full_nvlink_without_pairs_witness :
  is_full_nvlink (default_group_env GLOO 2) [5] state0
  = (Ret true,
     after state0
       [EvNvmlInit; EvNvmlDeviceGetHandleByIndex 5; EvNvmlShutdown]).
Proof.
  assert (Hlen : (length [5] <= 1)%nat) by (simpl; lia).
  exact (is_full_nvlink_without_pairs (default_group_env GLOO 2) [5]
           [5%nat] state0 eq_refl eq_refl Hlen).
Defined.

Lemma status_queries_probe_all_ok (E : Env)
    (ps : list (NvmlHandle * NvmlHandle)) :
  forallb (nvlink_ok E) ps = true -> status_queries (probe_events E ps) = ps.
Proof.
  induction ps as [|[h p] ps IH]; intros H; [reflexivity|].
  simpl in H. apply andb_true_iff in H. destruct H as [H1 H2].
  apply nvlink_ok_true in H1. simpl in *. rewrite H1.
  now rewrite (IH H2).
Qed.

Lemma pairs_from_cons (j : nat) (p : NvmlHandle)
    (js : list (nat * NvmlHandle)) (row : nat * NvmlHandle) :
  pairs_from ((j, p) :: js) row
  = (if (fst row <? j)%nat then [(snd row, p)] else []) ++ pairs_from js row.
Proof. reflexivity. Qed.

Lemma pairs_from_length (i : nat) (h : NvmlHandle) (l : list NvmlHandle)
    (k : nat) :
  length (pairs_from (enumerate_from k l) (i, h))
  = ((k + length l) - Nat.max k (S i))%nat.
Proof.
  revert k. induction l as [|x l IH]; intros k.
  - simpl. lia.
  - cbn [enumerate_from]. rewrite pairs_from_cons, length_app, IH.
    cbn [fst snd length]. destruct (Nat.ltb_spec i k); simpl; lia.
Qed.

Lemma pairs_rows_length (hs rest : list NvmlHandle) (k : nat) :
  (k + length rest = length hs)%nat ->
  (2 * length (flat_map (pairs_from (enumerate hs)) (enumerate_from k rest))
   = length rest * (length rest - 1))%nat.
Proof.
  revert k. induction rest as [|x rest IH]; intros k Hk.
  - reflexivity.
  - cbn [enumerate_from flat_map length] in *. rewrite length_app.
    unfold enumerate at 1. rewrite pairs_from_length.
    specialize (IH (S k) ltac:(lia)).
    replace ((0 + length hs) - Nat.max 0 (S k))%nat with (length rest)
      by lia.
    replace (S (length rest) - 1)%nat with (length rest) by lia.
    destruct (length rest) as [|m]; [lia|].
    replace (S m - 1)%nat with m in IH by lia. nia.
Qed.

Lemma pairs_length (hs : list NvmlHandle) :
  (2 * length (pairs hs) = length hs * (length hs - 1))%nat.
Proof. unfold pairs. unfold enumerate at 2. now apply pairs_rows_length. Qed.

(** X9.  On a full mesh the probe asks about every pair once: when all
    pairs of the [n] devices report NVLink-OK, [is_full_nvlink] answers
    true after exactly the status queries of the pairs [i < j], in loop
    order, [n (n - 1) / 2] of them. *)
Theorem is_full_nvlink_full_mesh (E : Env) (ids : list Z)
    (hs : list NvmlHandle) (s : State) :
  nvmlInit E = NVML_SUCCESS tt ->
  device_handles E ids = Some hs ->
  forallb (nvlink_ok E) (pairs hs) = true ->
  let r := is_full_nvlink E ids s in
  fst r = Ret true
  /\ status_queries (trace (snd r)) = status_queries (trace s) ++ pairs hs
  /\ (2 * length (pairs hs) = length ids * (length ids - 1))%nat.
Proof.
  intros Hi Hd Hok r. subst r.
  rewrite (is_full_nvlink_run E ids hs s Hi Hd).
  split; [cbn [fst]; now rewrite Hok|]. split.
  - cbn [snd after trace].
    change (EvNvmlInit :: ?l) with ([EvNvmlInit] ++ l).
    rewrite !status_queries_app.
    rewrite status_queries_handles, status_queries_probe_all_ok by assumption.
    simpl. now rewrite app_nil_r.
  - rewrite pairs_length. now rewrite (device_handles_length E ids hs Hd).
Qed.

Lemma is_full_nvlink_full_mesh_witness :
  let r := is_full_nvlink (default_group_env GLOO 4) [0; 1; 2; 3] state0 in
  fst r = Ret true
  /\ status_queries (trace (snd r))
     = [(0, 1); (0, 2); (0, 3); (1, 2); (1, 3); (2, 3)]%nat.
Proof.
  intros r.
  destruct (is_full_nvlink_full_mesh (default_group_env GLOO 4) [0; 1; 2; 3]
              [0; 1; 2; 3]%nat state0 eq_refl eq_refl eq_refl)
    as (H1 & H2 & _).
  split; [exact H1 | exact H2].
Defined.

Lemma comprehension_handles_failure (E : Env) (ids : list Z) (s : State) :
  device_handles E ids = None ->
  comprehension (call_nvmlDeviceGetHandleByIndex E) ids s
  = (Raise NVMLError,
     after s (map EvNvmlDeviceGetHandleByIndex
                (through_first_failure (handle_ok E) ids))).
Proof.
  revert s. induction ids as [|i ids IH]; intros s H; simpl in *.
  - discriminate.
  - unfold bind at 1. unfold call_nvmlDeviceGetHandleByIndex at 1.
    unfold handle_ok at 1. exec.
    destruct (nvmlDeviceGetHandleByIndex E i) as [h|c]; [|reflexivity].
    simpl. destruct (device_handles E ids) as [hs'|]; [discriminate|].
    specialize (IH (after s [EvNvmlDeviceGetHandleByIndex i]) eq_refl).
    unfold after in IH. simpl in IH. rewrite IH. simpl.
    unfold after. simpl. now rewrite <- app_assoc.
Qed.

Lemma is_full_nvlink_undecorated_failure (E : Env) (ids : list Z)
    (s : State) :
  device_handles E ids = None ->
  is_full_nvlink_undecorated E ids s
  = (Raise NVMLError,
     after s (map EvNvmlDeviceGetHandleByIndex
                (through_first_failure (handle_ok E) ids))).
Proof.
  intros Hd. unfold is_full_nvlink_undecorated. unfold bind at 1.
  now rewrite (comprehension_handles_failure E ids s Hd).
Qed.

(** X10.  NVML errors outside the pair loop are not absorbed.  If
    [nvmlInit] fails, the decorated function is not run, no session is
    shut down and the [NVMLError] leaves [is_full_nvlink].  If a device
    handle cannot be looked up, the lookups stop there, no status query
    is made, the session is shut down and the [NVMLError] leaves
    [is_full_nvlink]. *)
Theorem is_full_nvlink_errors_outside_loop (E : Env) (ids : list Z)
    (s : State) :
  (forall c, nvmlInit E = NVML_ERROR c ->
     is_full_nvlink E ids s = (Raise NVMLError, after s [EvNvmlInit]))
  /\ (nvmlInit E = NVML_SUCCESS tt -> device_handles E ids = None ->
      is_full_nvlink E ids s
      = (Raise NVMLError,
         after s (EvNvmlInit
                  :: map EvNvmlDeviceGetHandleByIndex
                       (through_first_failure (handle_ok E) ids)
                  ++ [EvNvmlShutdown]))).
Proof.
  split.
  - intros c Hc. unfold is_full_nvlink, with_nvml_context. exec.
    now rewrite Hc.
  - intros Hi Hd. unfold is_full_nvlink.
    rewrite with_nvml_context_shutdown by assumption.
    rewrite (is_full_nvlink_undecorated_failure E ids _ Hd).
    unfold after. simpl. now rewrite <- !app_assoc.
Qed.

Lemma is_full_nvlink_errors_outside_loop_witness :
  is_full_nvlink lost_device_env [0; 1; 2] state0
  = (Raise NVMLError,
     after state0
       [EvNvmlInit; EvNvmlDeviceGetHandleByIndex 0;
        EvNvmlDeviceGetHandleByIndex 1; EvNvmlShutdown]).
Proof.
  exact (proj2 (is_full_nvlink_errors_outside_loop lost_device_env
                  [0; 1; 2] state0) eq_refl eq_refl).
Defined.

Lemma _can_p2p_loop_authoritative_run (E : Env) (rank : nat) (l : list nat)
    (s : State) :
  _can_p2p_loop E false rank l s
  = (Ret (forallb (gpu_p2p_access_check E rank) (peers rank l)),
     after s (map (EvGpuP2PAccessCheck rank)
                (through_first_failure (gpu_p2p_access_check E rank)
                   (peers rank l)))).
Proof.
  revert s. unfold peers.
  induction l as [|i l IH]; intros s; simpl.
  - now rewrite after_nil.
  - destruct (Nat.eqb_spec i rank) as [->|Hne].
    + rewrite filter_cons_False by tauto. apply IH.
    + rewrite filter_cons_True by assumption. simpl. exec.
      destruct (gpu_p2p_access_check E rank i); simpl; [|reflexivity].
      rewrite IH. unfold after. simpl. now rewrite <- app_assoc.
Qed.

Lemma peers_spec (rank i : nat) (l : list nat) :
  In i (peers rank l) <-> In i l /\ i <> rank.
Proof.
  unfold peers. rewrite <- !list_elem_of_In, list_elem_of_filter. tauto.
Qed.

Lemma through_first_failure_incl {A} (f : A -> bool) (l : list A) (x : A) :
  In x (through_first_failure f l) -> In x l.
Proof.
  induction l as [|y l IH]; simpl; [tauto|].
  intros [->|H]; [now left|]. right. destruct (f y); [auto | destruct H].
Qed.

(** X11.  Without the override [_can_p2p] asks the authoritative check
    about the peers in ascending rank order, stops at the first that
    fails, and answers whether all passed.  It never asks about [rank]
    itself nor about a rank outside the group; with no peer at all it
    answers true without a call. *)
Theorem _can_p2p_checks_every_peer (E : Env) (rank world_size : nat)
    (s : State) :
  skip_p2p_check E = false ->
  let ps := peers rank (seq 0 world_size) in
  let asked := through_first_failure (gpu_p2p_access_check E rank) ps in
  _can_p2p E rank world_size s
  = (Ret (forallb (gpu_p2p_access_check E rank) ps),
     after s (map (EvGpuP2PAccessCheck rank) asked))
  /\ (forall i, In i asked -> i <> rank /\ (i < world_size)%nat)
  /\ ((world_size <= 1)%nat -> (rank < world_size)%nat ->
      _can_p2p E rank world_size s = (Ret true, s)).
Proof.
  intros Hs ps asked.
  assert (Hrun : _can_p2p E rank world_size s
                 = (Ret (forallb (gpu_p2p_access_check E rank) ps),
                    after s (map (EvGpuP2PAccessCheck rank) asked))).
  { unfold _can_p2p. rewrite Hs. apply _can_p2p_loop_authoritative_run. }
  split; [exact Hrun|]. split.
  - intros i Hi. apply through_first_failure_incl, peers_spec in Hi.
    destruct Hi as [Hin Hne]. split; [exact Hne|].
    apply in_seq in Hin. lia.
  - intros Hw Hr. rewrite Hrun. subst asked ps.
    assert (world_size = 1%nat /\ rank = 0%nat) as [-> ->] by lia.
    assert (peers 0 (seq 0 1) = []) as -> by (vm_compute; reflexivity).
    simpl. now rewrite after_nil.
Qed.

Lemma _can_p2p_checks_every_peer_witness :
  _can_p2p (default_group_env GLOO 4) 1 4 state0
  = (Ret true,
     after state0
       [EvGpuP2PAccessCheck 1 0; EvGpuP2PAccessCheck 1 2;
        EvGpuP2PAccessCheck 1 3]).
Proof.
  exact (proj1 (_can_p2p_checks_every_peer (default_group_env GLOO 4) 1 4
                  state0 eq_refl)).
Defined.

Lemma _can_p2p_loop_override_run (E : Env) (rank : nat) (l : list nat)
    (s : State) :
  _can_p2p_loop E true rank l s
  = match peers rank l with
    | [] => (Ret true, s)
    | i :: _ =>
        (Ret (can_device_access_peer E rank i),
         after s [EvLog LogSkippingP2PCheck; EvCanDeviceAccessPeer rank i])
    end.
Proof.
  revert s. unfold peers.
  induction l as [|i l IH]; intros s; simpl; [reflexivity|].
  destruct (Nat.eqb_spec i rank) as [->|Hne].
  - rewrite filter_cons_False by tauto. apply IH.
  - rewrite filter_cons_True by assumption. exec.
    unfold after. simpl. now rewrite <- app_assoc.
Qed.

Lemma first_peer (rank world_size : nat) :
  (2 <= world_size)%nat ->
  exists rest,
    peers rank (seq 0 world_size)
    = (if (rank =? 0)%nat then 1%nat else 0%nat) :: rest.
Proof.
  intros Hw. destruct world_size as [|[|w]]; try lia.
  unfold peers. cbn [seq].
  destruct (Nat.eqb_spec rank 0) as [->|Hne].
  - rewrite filter_cons_False by tauto.
    rewrite filter_cons_True by discriminate. eauto.
  - rewrite filter_cons_True by auto. eauto.
Qed.

(** X12.  With [SGLANG_SKIP_P2P_CHECK=1] and at least two ranks,
    [_can_p2p] logs that it trusts the driver, makes one call to
    [can_device_access_peer], about the lowest-numbered peer (rank 1 for
    rank 0, rank 0 otherwise), and returns its answer; the authoritative
    check is never called. *)
Theorem _can_p2p_override_asks_lowest_peer (E : Env)
    (rank world_size : nat) (s : State) :
  skip_p2p_check E = true ->
  (2 <= world_size)%nat ->
  let i := if (rank =? 0)%nat then 1%nat else 0%nat in
  _can_p2p E rank world_size s
  = (Ret (can_device_access_peer E rank i),
     after s [EvLog LogSkippingP2PCheck; EvCanDeviceAccessPeer rank i]).
Proof.
  intros Hs Hw i. unfold _can_p2p. rewrite Hs.
  rewrite _can_p2p_loop_override_run.
  destruct (first_peer rank world_size Hw) as [rest ->]. reflexivity.
Qed.

Lemma _can_p2p_override_asks_lowest_peer_witness :
  _can_p2p override_env 2 3 state0
  = (Ret false,
     after state0 [EvLog LogSkippingP2PCheck; EvCanDeviceAccessPeer 2 0]).
Proof.
  assert (Hw : (2 <= 3)%nat) by lia.
  exact (_can_p2p_override_asks_lowest_peer override_env 2 3 state0
           eq_refl Hw).
Defined.

(** ** The dispatch path without effects *)

Lemma custom_all_reduce_none_state (E : Env) (s st : State) (inp : Tensor) :
  custom_all_reduce E inp s = (Ret None, st) -> st = s.
Proof.
  unfold custom_all_reduce.
  unfold bind at 1. unfold attr at 1.
  destruct (disabled (self s)) as [[|]|];
    [unfold bind, ret; simpl; now intros [= <-]| |discriminate].
  unfold bind at 1. unfold bind at 1.
  pose proof (should_custom_ar_state s inp) as Hst.
  destruct (should_custom_ar inp s) as [[[|]|e] st']; simpl in Hst;
    subst st'; simpl; [|unfold ret; now intros [= <-]|discriminate].
  unfold bind at 1. unfold attr at 1.
  destruct (_IS_CAPTURING (self s)) as [[|]|]; [| |discriminate].
  - unfold bind at 1. unfold get_stream_capturing at 1.
    destruct (is_current_stream_capturing s).
    + unfold bind at 1.
      destruct (all_reduce E inp None s) as [[o|e] st']; discriminate.
    + discriminate.
  - unfold bind at 1.
    destruct (all_reduce E inp None s) as [[o|e] st']; discriminate.
Qed.

(** X13.  Declining costs nothing: [should_custom_ar] never changes the
    state, and whenever [custom_all_reduce] returns [None] it has
    allocated nothing, called nothing and changed nothing. *)
Theorem custom_all_reduce_not_handled_is_pure (E : Env) (s : State)
    (inp : Tensor) :
  snd (should_custom_ar inp s) = s
  /\ (fst (custom_all_reduce E inp s) = Ret None ->
      custom_all_reduce E inp s = (Ret None, s)).
Proof.
  split; [apply should_custom_ar_state|].
  destruct (custom_all_reduce E inp s) as [o st] eqn:Hrun. simpl.
  intros ->. now rewrite (custom_all_reduce_none_state E s st inp Hrun).
Qed.

Lemma custom_all_reduce_not_handled_is_pure_witness :
  custom_all_reduce (default_group_env GLOO 2) tensor_max enabled_state
  = (Ret None, enabled_state).
Proof.
  assert (H : fst (custom_all_reduce (default_group_env GLOO 2) tensor_max
                     enabled_state) = Ret None)
    by (vm_compute; reflexivity).
  exact (proj2 (custom_all_reduce_not_handled_is_pure
                  (default_group_env GLOO 2) enabled_state tensor_max) H).
Defined.

(** X14.  Eligibility is downward closed in the byte size: on an enabled
    coordinator, if an input is accepted then so is every input of at
    most its byte size whose size is a multiple of 16 and which is
    contiguous or weakly contiguous. *)
Theorem should_custom_ar_downward_closed (s : State) (inp inp' : Tensor) :
  Enabled (self s) ->
  should_custom_ar inp s = (Ret true, s) ->
  inp_size inp' <= inp_size inp ->
  inp_size inp' mod 16 = 0 ->
  is_weak_contiguous inp' = true ->
  should_custom_ar inp' s = (Ret true, s).
Proof.
  intros He Hok Hle Hmod Hpk.
  destruct (en_max_size _ He) as [ms Hms].
  destruct (en_world_size _ He) as (ws & Hws & Hin).
  destruct (en_full_nvlink _ He) as (nv & Hnv & _).
  pose proof (Enabled_world_size_ge_2 _ _ He Hws) as Hge.
  rewrite (should_custom_ar_enabled s inp ms ws nv _ _
             (en_disabled _ He) Hms Hws Hnv (en_budget _ He) Hge) in Hok.
  rewrite (should_custom_ar_enabled s inp' ms ws nv _ _
             (en_disabled _ He) Hms Hws Hnv (en_budget _ He) Hge).
  f_equal. f_equal. injection Hok as Hok. revert Hok.
  unfold isEligible. rewrite Hmod, Hpk. simpl.
  destruct (negb (inp_size inp mod 16 =? 0)); [discriminate|].
  destruct (negb (is_weak_contiguous inp)); [discriminate|].
  destruct (ws =? 2)%nat.
  - intros H. apply andb_true_iff in H. destruct H as [H1 H2].
    apply Z.ltb_lt in H1, H2. apply andb_true_iff.
    split; apply Z.ltb_lt; lia.
  - destruct (2 <? ws)%nat; [|discriminate].
    intros H. apply andb_true_iff in H. destruct H as [H H2].
    apply andb_true_iff in H. destruct H as [H0 H1].
    apply Z.ltb_lt in H1, H2. rewrite H0. simpl.
    apply andb_true_iff. split; apply Z.ltb_lt; lia.
Qed.

Lemma should_custom_ar_downward_closed_witness :
  should_custom_ar tensor_16 enabled_state = (Ret true, enabled_state).
Proof.
  assert (Hok : should_custom_ar tensor_1024 enabled_state
                = (Ret true, enabled_state)) by (vm_compute; reflexivity).
  assert (Hle : inp_size tensor_16 <= inp_size tensor_1024)
    by (vm_compute; discriminate).
  exact (should_custom_ar_downward_closed enabled_state tensor_1024
           tensor_16 enabled_coordinator_Enabled Hok Hle eq_refl eq_refl).
Defined.

(** ** The exchanges *)

Lemma enumerate_from_map_seq {A} (f : nat -> A) (k n : nat) :
  enumerate_from k (map f (seq k n)) = map (fun i => (i, f i)) (seq k n).
Proof.
  revert k. induction n as [|n IH]; intros k; [reflexivity|].
  simpl. now rewrite IH.
Qed.

Lemma opened_handles_app (a b : list Event) :
  opened_handles (a ++ b) = opened_handles a ++ opened_handles b.
Proof. unfold opened_handles. apply flat_map_app. Qed.

Lemma opened_handles_slots (rank : nat) (mine : IpcHandle)
    (peer : nat -> IpcHandle) (l : list nat) :
  opened_handles
    (flat_map (slot_events rank)
       (map (fun i => (i, if (i =? rank)%nat then mine else peer i)) l))
  = map peer (peers rank l).
Proof.
  unfold peers. induction l as [|i l IH]; [reflexivity|].
  simpl. rewrite opened_handles_app, IH. unfold slot_events. simpl.
  destruct (Nat.eqb_spec i rank) as [->|Hne].
  - now rewrite filter_cons_False by tauto.
  - now rewrite filter_cons_True by assumption.
Qed.

Lemma peers_seq_length (rank k n : nat) :
  (k <= rank < k + n)%nat -> length (peers rank (seq k n)) = (n - 1)%nat.
Proof.
  unfold peers. revert k. induction n as [|n IH]; intros k Hr; [lia|].
  simpl. destruct (Nat.eq_dec k rank) as [->|Hne].
  - rewrite filter_cons_False by tauto.
    assert (Hall : forall m, (rank < m)%nat ->
              filter (fun i => i <> rank) (seq m n) = seq m n).
    { clear. induction n as [|n IH]; intros m Hm; [reflexivity|].
      simpl. rewrite filter_cons_True by lia. f_equal. apply IH. lia. }
    rewrite Hall by lia. rewrite length_seq. lia.
  - rewrite filter_cons_True by assumption. simpl.
    rewrite IH by lia. lia.
Qed.

(** X15.  One call of [create_shared_buffer] makes one [cudaMalloc], one
    export and one exchange of handles, in this order, and then opens the
    handles of the peers in rank order: never its own, and one fewer than
    the world size when its rank is in the group.  The coordinator object
    is not touched. *)
Theorem create_shared_buffer_opens_peers_only (E : Env) (size : Z)
    (g : Group) (s : State) :
  let pointer := cudaMalloc E (trace s) size in
  let exported :=
    trace s ++ [EvCudaMalloc size; EvCudaIpcGetMemHandle pointer] in
  let r := create_shared_buffer E size g s in
  exists opens,
    fst r = Ret (shared_buffer_pointers E size g (trace s))
    /\ self (snd r) = self s
    /\ trace (snd r)
       = exported
         ++ EvAllGatherObject g (cudaIpcGetMemHandle E pointer)
            :: map EvCudaIpcOpenMemHandle opens
    /\ opens
       = map (peer_ipc_handle E exported g)
           (peers (get_rank E g) (seq 0 (get_world_size E g)))
    /\ ((get_rank E g < get_world_size E g)%nat ->
        length opens = (get_world_size E g - 1)%nat).
Proof.
  intros pointer exported r. subst r.
  rewrite create_shared_buffer_eq.
  exists (map (peer_ipc_handle E exported g)
            (peers (get_rank E g) (seq 0 (get_world_size E g)))).
  split; [reflexivity|]. split; [reflexivity|].
  split; [|split; [reflexivity|]].
  - cbn [snd after trace]. unfold shared_buffer_events. cbv zeta.
    fold pointer. subst exported. rewrite <- !app_assoc. simpl.
    do 4 f_equal.
    unfold shared_buffer_handles, enumerate, gathered. cbv zeta.
    fold pointer. rewrite enumerate_from_map_seq.
    set (peer := peer_ipc_handle E _ g).
    set (mine := cudaIpcGetMemHandle E pointer).
    rewrite <- (opened_handles_slots (get_rank E g) mine peer).
    generalize (map (fun i => (i, if (i =? get_rank E g)%nat then mine
                                  else peer i))
                  (seq 0 (get_world_size E g))).
    clear. intros l. induction l as [|[i h] l IH]; [reflexivity|].
    simpl. rewrite opened_handles_app, map_app, <- IH.
    unfold slot_events. simpl. now destruct (i =? get_rank E g)%nat.
  - intros Hr. rewrite length_map. apply peers_seq_length. lia.
Qed.

Lemma create_shared_buffer_opens_peers_only_witness :
  let E := default_group_env GLOO 4 in
  exists opens,
    trace (snd (create_shared_buffer E 4096 None state0))
    = [EvCudaMalloc 4096; EvCudaIpcGetMemHandle 4096;
       EvAllGatherObject None 4097]
      ++ map EvCudaIpcOpenMemHandle opens
    /\ length opens = 3%nat.
Proof.
  intros E.
  destruct (create_shared_buffer_opens_peers_only E 4096 None state0)
    as (opens & _ & _ & Ht & _ & Hl).
  exists opens. split; [exact Ht|]. apply Hl. vm_compute. lia.
Defined.

Lemma exchanged_rows_cons (E : Env) (g : Group) (me : nat)
    (tr : list Event) (i r : nat) (ranks : list (nat * nat))
    (all_data : list MetaRow) :
  exchanged_rows E g me tr ((i, r) :: ranks) all_data
  = exchanged_rows E g me (tr ++ [EvBroadcastObjectList g i r]) ranks
      (<[i := if (r =? me)%nat
              then default ((None, None) : MetaRow) (all_data !! i)
              else peer_graph_meta E tr g r]> all_data).
Proof. reflexivity. Qed.

Lemma register_graph_buffers_loop_run (E : Env) (g : Group)
    (ranks : list nat) (n : nat) (all_data : list MetaRow) (s : State) :
  group (self s) = Some g ->
  (n + length ranks <= length all_data)%nat ->
  register_graph_buffers_loop E group (enumerate_from n ranks) all_data s
  = (Ret (exchanged_rows E g (get_rank E None) (trace s)
            (enumerate_from n ranks) all_data),
     after s (map (broadcast_event g) (enumerate_from n ranks))).
Proof.
  revert n all_data s.
  induction ranks as [|r ranks IH]; intros n all_data s Hg Hlen.
  - simpl. now rewrite after_nil.
  - cbn [enumerate_from map]. rewrite exchanged_rows_cons.
    cbn [register_graph_buffers_loop].
    simpl in Hlen.
    destruct (lookup_lt_is_Some_2 all_data n ltac:(lia)) as [row Hrow].
    rewrite Hrow. change (default _ (Some row)) with row.
    unfold bind at 1. unfold subscript. rewrite Hrow. unfold ret at 1.
    rewrite (bind_attr group _ s g Hg).
    unfold bind at 1. unfold get_trace at 1.
    rewrite bind_emit.
    rewrite IH; [|exact Hg|rewrite length_insert; lia].
    rewrite after_after. reflexivity.
Qed.

Lemma exchanged_rows_length (E : Env) (g : Group) (me : nat)
    (tr : list Event) (ranks : list (nat * nat)) (all_data : list MetaRow) :
  length (exchanged_rows E g me tr ranks all_data) = length all_data.
Proof.
  revert tr all_data. induction ranks as [|[i r] ranks IH];
    intros tr all_data; [reflexivity|].
  simpl. now rewrite IH, length_insert.
Qed.

Lemma exchanged_rows_kept (E : Env) (g : Group) (me : nat)
    (tr : list Event) (ranks : list (nat * nat)) (all_data : list MetaRow)
    (k : nat) :
  (forall r, In (k, r) ranks -> r = me) ->
  exchanged_rows E g me tr ranks all_data !! k = all_data !! k.
Proof.
  revert tr all_data. induction ranks as [|[i r] ranks IH];
    intros tr all_data Hk; [reflexivity|].
  simpl. rewrite IH by (intros r' Hin; apply Hk; now right).
  destruct (Nat.eq_dec i k) as [->|Hne].
  - rewrite (Hk r) by now left. rewrite Nat.eqb_refl.
    destruct (all_data !! k) as [row|] eqn:Hrow.
    + simpl. now rewrite list_insert_id.
    + rewrite list_insert_ge; [exact Hrow|].
      now apply lookup_ge_None.
  - now apply list_lookup_insert_ne.
Qed.

Lemma enumerate_from_elem {A} (l : list A) (n i : nat) (x : A) :
  In (i, x) (enumerate_from n l) ->
  (n <= i)%nat /\ l !! (i - n)%nat = Some x.
Proof.
  rewrite <- list_elem_of_In, list_elem_of_lookup.
  intros [k Hk]. rewrite enumerate_from_lookup in Hk.
  destruct (l !! k) eqn:Hl; [|discriminate]. simpl in Hk.
  injection Hk as <- <-. split; [lia|].
  now replace (n + k - n)%nat with k by lia.
Qed.

(** X16.  One registration pass, in full: the engine is asked for the
    local handle and offsets, then one broadcast is made per member of
    the group, in ascending order of their ranks in the default group,
    then the engine receives one handle and one offset list per rank.
    When the process stands at its own rank in that order, the entry at
    its rank is the handle and the offsets the engine returned. *)
Theorem register_graph_buffers_tables (E : Env) (s : State) (g : Group)
    (ptr : Z) :
  _ptr (self s) = Some ptr ->
  group (self s) = Some g ->
  rank (self s) = Some (get_rank E g) ->
  Group_consistent E g ->
  let meta := get_graph_buffer_ipc_meta E (trace s) ptr in
  let srcs := merge_sort Nat.le (get_process_group_ranks E g) in
  exists handles offsets,
    register_graph_buffers E s
    = (Ret tt,
       after s
         ([EvGetGraphBufferIpcMeta ptr;
           EvLog (LogRegistering (length (snd meta)))]
          ++ map (broadcast_event g) (enumerate srcs)
          ++ [EvRegisterGraphBuffers ptr handles offsets]))
    /\ Sorted Nat.le srcs
    /\ length handles = get_world_size E g
    /\ length offsets = get_world_size E g
    /\ (srcs !! get_rank E g = Some (get_rank E None) ->
        handles !! get_rank E g = Some (Some (fst meta))
        /\ offsets !! get_rank E g = Some (Some (snd meta))).
Proof.
  intros Hp Hg Hr [Hlt Hlen] meta srcs.
  unfold register_graph_buffers.
  rewrite (bind_attr _ptr _ s ptr Hp).
  unfold bind at 1. unfold get_trace at 1.
  rewrite bind_emit. fold meta. destruct meta as [handle offset] eqn:Hmeta.
  rewrite bind_emit, after_after.
  rewrite (bind_attr_after group _ s _ g Hg).
  rewrite (bind_attr_after rank _ s _ _ Hr).
  unfold bind at 1. unfold subscript_assign.
  rewrite length_replicate.
  apply Nat.ltb_lt in Hlt. rewrite Hlt. apply Nat.ltb_lt in Hlt.
  unfold ret at 1.
  rewrite (bind_attr_after group _ s _ g Hg).
  fold srcs.
  set (all_data := <[_ := _]> _).
  assert (Hsl : length srcs = get_world_size E g).
  { subst srcs.
    now rewrite (Permutation_length (merge_sort_Permutation _ _)). }
  assert (Hal : length all_data = get_world_size E g).
  { subst all_data. now rewrite length_insert, length_replicate. }
  unfold enumerate. unfold bind at 1.
  cbn [app fst snd].
  rewrite (register_graph_buffers_loop_run E g srcs 0 all_data
             (after s [EvGetGraphBufferIpcMeta ptr;
                       EvLog (LogRegistering (length offset))]) Hg)
    by (rewrite Hal, Hsl; simpl; lia).
  cbv beta iota. rewrite after_after.
  set (rows := exchanged_rows _ _ _ _ _ _).
  rewrite (bind_attr_after _ptr _ s _ ptr Hp).
  rewrite emit_after, !after_after.
  exists (map fst rows), (map snd rows). split.
  { rewrite <- !app_assoc. reflexivity. }
  split; [apply Sorted_merge_sort; intros x y; apply Nat.le_ge_cases|].
  assert (Hrl : length rows = get_world_size E g)
    by (subst rows; now rewrite exchanged_rows_length).
  split; [now rewrite length_map|]. split; [now rewrite length_map|].
  intros Hown.
  assert (Hrow : rows !! get_rank E g = Some (Some handle, Some offset)).
  { subst rows. rewrite exchanged_rows_kept.
    - subst all_data. apply list_lookup_insert_eq.
      now rewrite length_replicate.
    - intros r Hin. apply enumerate_from_elem in Hin.
      destruct Hin as [_ Hin]. rewrite Nat.sub_0_r in Hin. congruence. }
  change map with (@fmap list _). rewrite !list_lookup_fmap.
  unfold MetaRow in *. rewrite Hrow. split; reflexivity.
Qed.

Lemma register_graph_buffers_tables_witness :
  exists handles offsets,
    register_graph_buffers (default_group_env GLOO 2) enabled_state
    = (Ret tt,
       after enabled_state
         [EvGetGraphBufferIpcMeta 42; EvLog (LogRegistering 2);
          EvBroadcastObjectList None 0 0; EvBroadcastObjectList None 1 1;
          EvRegisterGraphBuffers 42 handles offsets])
    /\ handles !! 0%nat = Some (Some 42)
    /\ offsets !! 0%nat = Some (Some [8; 16]).
Proof.
  assert (Hc : Group_consistent (default_group_env GLOO 2) None)
    by (split; vm_compute; lia).
  destruct (register_graph_buffers_tables (default_group_env GLOO 2)
              enabled_state None 42 eq_refl eq_refl eq_refl Hc)
    as (handles & offsets & Hrun & _ & _ & _ & Hown).
  exists handles, offsets. split; [exact Hrun|].
  apply Hown. reflexivity.
Defined.

(** ** Capture regions of real callers *)

#[local] Instance stays_enabled_preorder (E : Env) :
  PreOrder (stays_enabled E).
Proof.
  split.
  - intros s H. exact H.
  - intros a b c H1 H2 H. apply H2, H1, H.
Qed.

Lemma stays_enabled_of_same_self (E : Env) {A} (m : M A) :
  preserves same_self m -> preserves (stays_enabled E) m.
Proof.
  apply preserves_weaken. intros s s' Hs H.
  unfold same_self in Hs. now rewrite Hs.
Qed.

Lemma Attached_set_IS_CAPTURING (E : Env) (c : Coordinator) (b : bool) :
  Attached E c -> Attached E (set_IS_CAPTURING b c).
Proof. intros (g & H1 & H2 & H3). exists g. auto. Qed.

Lemma Attached_set_ptr (E : Env) (c : Coordinator) (p : Z) :
  Attached E c -> Attached E (set_ptr p c).
Proof. intros (g & H1 & H2 & H3). exists g. auto. Qed.

Lemma stays_enabled_set_IS_CAPTURING (E : Env) (b : bool) :
  preserves (stays_enabled E) (assign (set_IS_CAPTURING b)).
Proof.
  intros s [He Ha]. split.
  - now apply Enabled_set_IS_CAPTURING.
  - now apply Attached_set_IS_CAPTURING.
Qed.

Lemma stays_enabled_set_ptr (E : Env) (p : Z) :
  preserves (stays_enabled E) (assign (set_ptr p)).
Proof.
  intros s [He Ha]. split.
  - now apply Enabled_set_ptr.
  - now apply Attached_set_ptr.
Qed.

Ltac stays_enabled_prim E :=
  first [ apply stays_enabled_set_IS_CAPTURING
        | apply stays_enabled_set_ptr
        | apply stays_enabled_of_same_self;
          first [ apply same_self_emit
                | apply (same_self_free_shared_buffer E)
                | apply (same_self_register_graph_buffers E)
                | apply (same_self_custom_all_reduce E)
                | apply (same_self_all_reduce E)
                | apply same_self_should_custom_ar ] ].

Lemma stays_enabled_close (E : Env) : preserves (stays_enabled E) (close E).
Proof. unfold close. preserve_with ltac:(stays_enabled_prim E). Qed.

Lemma stays_enabled_capture (E : Env) {A} (body : M A) :
  preserves (stays_enabled E) body ->
  preserves (stays_enabled E) (capture E body).
Proof.
  intros Hb. unfold capture.
  preserve_with ltac:(first [stays_enabled_prim E | exact Hb]).
Qed.

Lemma stays_enabled_run (E : Env) (p : Client) :
  preserves (stays_enabled E) (run E p).
Proof.
  induction p; simpl;
    try solve [preserve_with
                 ltac:(first [stays_enabled_prim E | assumption])].
  all: first [ apply stays_enabled_close
             | now apply stays_enabled_capture
             | intros s H; exact H ].
Qed.

(** X17.  From construction to the end of a capture: on a coordinator
    that construction enabled for a consistent group, whatever sequence
    of coordinator calls, nested captures, closes, raised and swallowed
    exceptions the body of a capture region is made of, leaving the
    region makes exactly one registration pass, resets [_IS_CAPTURING]
    and passes the outcome of the body on. *)
Theorem capture_after_construction_registers_once (E : Env)
    (recording : bool) (g : Group) (dev : DeviceArg) (ms : Z)
    (body : Client) :
  let s := snd (construct E recording g dev ms) in
  disabled (self s) = Some false ->
  Group_consistent E g ->
  let region := run E body (with_self s (set_IS_CAPTURING true (self s))) in
  let r := run E (With_capture body) s in
  fst r = fst region
  /\ _IS_CAPTURING (self (snd r)) = Some false
  /\ exists evs,
       trace (snd r) = trace (snd region) ++ evs
       /\ count is_registration evs = 1%nat
       /\ count is_graph_meta_query evs = 1%nat.
Proof.
  intros s Hd Hc region r.
  assert (Hs : Enabled (self s) /\ Attached E (self s)).
  { destruct (construct_cases E recording g dev ms)
      as [Hi|(_ & tr0 & Hb)]; fold s in Hi || fold s in Hb.
    - rewrite (inert_disabled _ Hi) in Hd. discriminate.
    - split; [apply (built_enabled _ _ _ _ _ Hb)|].
      exists g. split; [apply (built_group _ _ _ _ _ Hb)|].
      split; [apply (built_rank _ _ _ _ _ Hb) | exact Hc]. }
  assert (Hregion : Enabled (self (snd region))
                    /\ Attached E (self (snd region))).
  { apply (stays_enabled_run E body). destruct Hs as [He Ha]. split.
    - now apply Enabled_set_IS_CAPTURING.
    - now apply Attached_set_IS_CAPTURING. }
  destruct Hregion as [He (g' & Hg & Hr & Hcons)].
  subst r. cbn [run]. rewrite capture_unfold. fold region. cbv zeta.
  destruct (en_ptr _ He) as [ptr Hp].
  set (left := with_self (snd region) _).
  destruct (register_graph_buffers_once E left g' ptr)
    as (evs & Hrun & Hc1 & Hc2); try assumption.
  unfold bind, attr. subst left. simpl. rewrite (en_disabled _ He). simpl.
  simpl in Hrun. rewrite Hrun. simpl.
  split; [reflexivity|]. split; [reflexivity|]. exists evs. auto.
Qed.

Lemma capture_after_construction_registers_once_witness :
  let E := default_group_env GLOO 2 in
  let s := snd (construct E false None (DevInt 0) 8388608) in
  let body := Seq (Call_custom_all_reduce tensor_1024) (Throw RuntimeError) in
  fst (run E (With_capture body) s) = Raise RuntimeError
  /\ _IS_CAPTURING (self (snd (run E (With_capture body) s))) = Some false.
Proof.
  intros E s body.
  assert (Hd : disabled (self s) = Some false) by (vm_compute; reflexivity).
  assert (Hc : Group_consistent E None) by (split; vm_compute; lia).
  destruct (capture_after_construction_registers_once E false None
              (DevInt 0) 8388608 body Hd Hc) as (H1 & H2 & _).
  split; [|exact H2].
  etransitivity; [exact H1|]. vm_compute. reflexivity.
Defined.

(** ** The topology checks of [__init__] *)


